(** * grammybot: the message pipeline of [src/bot/bot.ts]

    A shallow embedding of the [BotApp] class: the token-masking helper
    ([maskBotToken]), the photo and text handlers ([handlePhoto],
    [handleMessageText]), the dispatcher ([allMessagesHandler]) and the
    batched save ([saveTextMessages]).

    JavaScript strings are modelled as [string] (and, inside the regular
    expression engine, as [list ascii]): a sequence of code units.  The
    handlers are [async] functions that await every call in sequence; the
    embedding records the calls they make on their collaborators (the
    reply surface, the table client, the completion client, the timer) as
    a chronological list of events.  The collaborators themselves are
    taken to answer: a handler is left by an exception only where its own
    code raises one (a token that [new RegExp] refuses, a missing
    completion client in [handlePhoto]). *)

From Stdlib Require Import List String Ascii Bool Arith ZArith Lia.
From Stdlib Require Import DecimalString DecimalZ.
Import ListNotations.

Local Open Scope string_scope.
Local Open Scope list_scope.

(* ================================================================== *)
(** ** JavaScript values used by the handlers *)

Module Js.

(** [!!v] for a value of type [string | undefined]: [undefined] and the
    empty string are falsy. *)
Definition truthy (v : option string) : bool :=
  match v with
  | None => false
  | Some EmptyString => false
  | Some (String _ _) => true
  end.

(** [a || b] on [string | undefined]. *)
Definition or (a b : option string) : option string :=
  if truthy a then a else b.

(** [String(n)] for an integer-valued number (identifiers are integers
    well inside the range printed without an exponent). *)
Definition String_of_number (n : Z) : string :=
  NilZero.string_of_int (Z.to_int n).

(** [String(v)] for [number | undefined]. *)
Definition String_ (v : option Z) : string :=
  match v with
  | None => "undefined"
  | Some n => String_of_number n
  end.

(** [Array.prototype.join] on an array of strings. *)
Fixpoint join (sep : string) (xs : list string) : string :=
  match xs with
  | [] => ""
  | [x] => x
  | x :: rest => x ++ sep ++ join sep rest
  end.

(** [w] is a prefix of [l]. *)
Fixpoint startsWith (w l : list ascii) : bool :=
  match w, l with
  | [], _ => true
  | _ :: _, [] => false
  | a :: w', b :: l' => Ascii.eqb a b && startsWith w' l'
  end.

(** [String.prototype.includes] on code-unit lists: [w] occurs in [l]. *)
Fixpoint includes (w l : list ascii) : bool :=
  startsWith w l ||
  match l with
  | [] => false
  | _ :: l' => includes w l'
  end.

(** [s.includes(w)] on strings. *)
Definition String_includes (s w : string) : bool :=
  includes (list_ascii_of_string w) (list_ascii_of_string s).

End Js.

(* ================================================================== *)
(** ** [new RegExp(source, 'g')] and [String.prototype.replace]

    The fragment of the (Annex B, non-unicode) pattern grammar that the
    two patterns of [maskBotToken] live in: a sequence of terms, each a
    pattern character, the dot, or one of the assertions [^] and [$].
    No term of the fragment is quantified, so a match never backtracks. *)

Module RegExp.

Local Open Scope char_scope.

Inductive Term : Type :=
| TChar (c : ascii)      (* PatternCharacter *)
| TAny                   (* .  *)
| TAssertStart           (* ^  *)
| TAssertEnd.            (* $  *)

Definition isDigit (c : ascii) : bool :=
  ((48 <=? nat_of_ascii c) && (nat_of_ascii c <=? 57))%nat.

(** The syntax characters that start a construct outside the fragment:
    escapes, quantifiers, groups, classes and alternation. *)
Definition startsOtherSyntax (c : ascii) : bool :=
  Ascii.eqb c "\" || Ascii.eqb c "*" || Ascii.eqb c "+" || Ascii.eqb c "?"
  || Ascii.eqb c "(" || Ascii.eqb c ")" || Ascii.eqb c "[" || Ascii.eqb c "|".

Fixpoint skipDigits (p : list ascii) : list ascii :=
  match p with
  | c :: p' => if isDigit c then skipDigits p' else p
  | [] => []
  end.

(** After an opening brace: [DecimalDigits }], [DecimalDigits ,}] or
    [DecimalDigits , DecimalDigits }].  A brace that opens none of
    these is an ordinary pattern character (Annex B). *)
Definition bracedQuantifierAhead (p : list ascii) : bool :=
  match p with
  | d :: _ =>
      isDigit d &&
      match skipDigits p with
      | c :: q =>
          Ascii.eqb c "}" ||
          (Ascii.eqb c "," &&
           match q with
           | c2 :: _ =>
               Ascii.eqb c2 "}" ||
               (isDigit c2 &&
                match skipDigits q with
                | c3 :: _ => Ascii.eqb c3 "}"
                | [] => false
                end)
           | [] => false
           end)
      | [] => false
      end
  | [] => false
  end.

(** [new RegExp(source)]: [None] when the source is a SyntaxError or
    uses a construct outside the fragment. *)
Fixpoint parsePattern (p : list ascii) : option (list Term) :=
  match p with
  | [] => Some []
  | c :: p' =>
      if Ascii.eqb c "^" then option_map (cons TAssertStart) (parsePattern p')
      else if Ascii.eqb c "$" then option_map (cons TAssertEnd) (parsePattern p')
      else if Ascii.eqb c "." then option_map (cons TAny) (parsePattern p')
      else if startsOtherSyntax c then None
      else if Ascii.eqb c "{" && bracedQuantifierAhead p' then None
      else option_map (cons (TChar c)) (parsePattern p')
  end.

(** LineTerminator, in the code units a [string] holds: LF and CR. *)
Definition isLineTerminator (c : ascii) : bool :=
  ((nat_of_ascii c =? 10) || (nat_of_ascii c =? 13))%nat.

(** The matcher of a term sequence at index [pos] of the input, [rest]
    being the input from [pos] on.  A match returns what follows it.
    Without the [m] flag, [^] holds at index 0 only and [$] at the end
    of the input only. *)
Fixpoint matchTerms (ts : list Term) (pos : nat) (rest : list ascii)
  : option (list ascii) :=
  match ts with
  | [] => Some rest
  | TChar c :: ts' =>
      match rest with
      | x :: rest' => if Ascii.eqb x c then matchTerms ts' (S pos) rest' else None
      | [] => None
      end
  | TAny :: ts' =>
      match rest with
      | x :: rest' => if isLineTerminator x then None else matchTerms ts' (S pos) rest'
      | [] => None
      end
  | TAssertStart :: ts' => if Nat.eqb pos 0 then matchTerms ts' pos rest else None
  | TAssertEnd :: ts' =>
      match rest with
      | [] => matchTerms ts' pos rest
      | _ :: _ => None
      end
  end.

(** GetSubstitution for a pattern without capture groups: [$$], [$&],
    [$`] and [$'] are expanded, every other dollar sign is literal. *)
Fixpoint GetSubstitution (matched before after template : list ascii)
  : list ascii :=
  match template with
  | [] => []
  | c :: r =>
      match r with
      | d :: r' =>
          if Ascii.eqb c "$" && Ascii.eqb d "$" then
            "$" :: GetSubstitution matched before after r'
          else if Ascii.eqb c "$" && Ascii.eqb d "`" then
            before ++ GetSubstitution matched before after r'
          else if Ascii.eqb c "$" && Ascii.eqb d "&" then
            matched ++ GetSubstitution matched before after r'
          else if Ascii.eqb c "$" && Ascii.eqb d "'" then
            after ++ GetSubstitution matched before after r'
          else c :: GetSubstitution matched before after r
      | [] => [c]
      end
  end.

(** The loop of [RegExp.prototype[Symbol.replace]] for a global regular
    expression, from [lastIndex = pos]: the next match is searched from
    [pos] upwards; the text skipped on the way is copied, the match is
    replaced, and the search resumes after the match (one code unit
    further when the match was empty).  [fuel] bounds the number of
    iterations; [S (length rest)] is always enough. *)
Fixpoint replaceFrom (fuel : nat) (ts : list Term) (template whole : list ascii)
                     (pos : nat) (rest : list ascii) : list ascii :=
  match fuel with
  | O => rest
  | S fuel' =>
      match matchTerms ts pos rest with
      | Some rest' =>
          let len := List.length rest - List.length rest' in
          let matched := firstn len rest in
          let replacement :=
            GetSubstitution matched (firstn pos whole) rest' template in
          match len, rest with
          | O, [] => replacement
          | O, c :: rest1 =>
              replacement ++ c :: replaceFrom fuel' ts template whole (S pos) rest1
          | S _, _ =>
              replacement ++ replaceFrom fuel' ts template whole (pos + len) rest'
          end
      | None =>
          match rest with
          | [] => []
          | c :: rest1 => c :: replaceFrom fuel' ts template whole (S pos) rest1
          end
      end
  end.

Definition replaceAll (ts : list Term) (template whole : list ascii) : list ascii :=
  replaceFrom (S (List.length whole)) ts template whole 0 whole.

(** [text.replace(new RegExp(source, 'g'), replacement)]. *)
Definition replace (text source replacement : string) : option string :=
  match parsePattern (list_ascii_of_string source) with
  | None => None
  | Some ts =>
      Some (string_of_list_ascii
              (replaceAll ts (list_ascii_of_string replacement)
                          (list_ascii_of_string text)))
  end.

End RegExp.


(* ================================================================== *)
(** ** Data model *)

(** [ifTruthy v f g] is [v ? f(v) : g] for [v : string | undefined]. *)
Definition ifTruthy {A : Type} (v : option string) (f : string -> A) (g : A) : A :=
  match v with
  | Some (String c s) => f (String c s)
  | _ => g
  end.

(** [TelegramMessageType]: what [allMessagesHandler] extracts from an update. *)
Record TelegramMessageType : Type := {
  replyToMessage : option string;
  text : option string;
  caption : option string;
  photo : option string
}.

Inductive MessageType : Type := type_text | type_photo.

(** Modelled from the spec: the class [MessageEntity] of
    [../entities/messages] is not part of the sources.  Its constructor
    takes the four fields below; [init(order?)] resolves to the row handed
    to the table client, which the spec describes as those fields and the
    optional explicit [order]. *)
Record MessageEntity : Type := {
  payload : string;
  userId : string;
  senderId : string;
  type : MessageType
}.

Record IMessageEntity : Type := {
  entity : MessageEntity;
  order : option nat
}.

Definition init (e : MessageEntity) (order : option nat) : IMessageEntity :=
  {| entity := e; order := order |}.

(** The part of a grammy [Context] the handlers read. *)
Record ReplyToMessage : Type := { reply_text : option string }.

Record Message : Type := {
  msg_text : option string;
  msg_caption : option string;
  msg_photo : option (list string);        (* PhotoSize[], by file id *)
  reply_to_message : option ReplyToMessage
}.

Record File : Type := { file_path : option string }.

Record Context : Type := {
  from_id : option Z;                      (* ctx.from?.id *)
  message : option Message;                (* ctx.message *)
  getFile_result : File                    (* what ctx.getFile() resolves to *)
}.

(** Modelled from the spec: the string table [t] of [./languages] is not
    part of the sources; the handlers use these four entries. *)
Record Languages : Type := {
  yourAre : string;
  readingImage : string;
  sorryICannotUnderstand : string;
  sorryICannotUnderstandMessageType : string
}.

(** Modelled from the spec: [OpenAIClient] of [./ai/openai] is not part of
    the sources.  [chat(persona, inputs, context)] resolves to a list of
    output strings, [chatWithImage(persona, inputs, imageUrl)] to a string
    or [undefined]. *)
Record OpenAIClient : Type := {
  chat : string -> list string -> list string -> list string;
  chatWithImage : string -> list string -> string -> option string
}.

Record BotAppOptions : Type := {
  botToken : string;
  aiClient : OpenAIClient
}.

Record TelegramApiClient : Type := {
  baseUrl : string;
  api_botToken : string
}.

Definition new_TelegramApiClient (botToken : string) : TelegramApiClient :=
  {| baseUrl := "https://api.telegram.org"; api_botToken := botToken |}.

Definition getFileUrl (client : TelegramApiClient) (filePath : string) : string :=
  baseUrl client ++ "/file/bot" ++ api_botToken client ++ "/" ++ filePath.

(* ================================================================== *)
(** ** Awaited calls as a trace *)

(** A call a handler awaits on one of its collaborators. *)
Inductive Event : Type :=
| Reply (text : string)                               (* ctx.reply *)
| GetFile                                             (* ctx.getFile *)
| Insert (row : IMessageEntity)                       (* table insert *)
| InsertBatch (rows : list IMessageEntity)            (* table insertBatch *)
| Chat (persona : string) (inputs context : list string)
| ChatWithImage (persona : string) (inputs : list string) (imageUrl : string)
| Delay (ms : Z).                                     (* delay(ms) *)

(** How an [async] function ends: it returns, or an exception leaves it. *)
Inductive Completion (A : Type) : Type :=
| Returned (a : A)
| Thrown.
Arguments Returned {A} a.
Arguments Thrown {A}.

(** An [async] computation: the calls awaited so far, in order, and the
    way it ended. *)
Definition Async (A : Type) : Type := (list Event * Completion A)%type.

Definition ret {A : Type} (a : A) : Async A := ([], Returned a).

Definition throw {A : Type} : Async A := ([], Thrown).

Definition bind {A B : Type} (m : Async A) (k : A -> Async B) : Async B :=
  match m with
  | (tr, Returned a) => let (tr', r) := k a in (tr ++ tr', r)
  | (tr, Thrown) => (tr, Thrown)
  end.

Definition emit (e : Event) : Async unit := ([e], Returned tt).

Declare Scope async_scope.
Delimit Scope async_scope with async.
Notation "x <- m ;; k" := (bind m (fun x => k))
  (at level 61, m at next level, right associativity) : async_scope.
Notation "m ;; k" := (bind m (fun _ => k))
  (at level 61, right associativity) : async_scope.

Definition trace {A : Type} (m : Async A) : list Event := fst m.
Definition completion {A : Type} (m : Async A) : Completion A := snd m.

(** Projections of a trace. *)
Definition replies (tr : list Event) : list string :=
  flat_map (fun e => match e with Reply s => [s] | _ => [] end) tr.

Definition inserts (tr : list Event) : list IMessageEntity :=
  flat_map (fun e => match e with Insert r => [r] | _ => [] end) tr.

Definition storeWrites (tr : list Event) : list Event :=
  filter (fun e => match e with Insert _ | InsertBatch _ => true | _ => false end) tr.

Definition chatCalls (tr : list Event) : list (string * list string * list string) :=
  flat_map (fun e => match e with Chat p i c => [(p, i, c)] | _ => [] end) tr.

Definition chatWithImageCalls (tr : list Event) : list (string * list string * string) :=
  flat_map (fun e => match e with ChatWithImage p i u => [(p, i, u)] | _ => [] end) tr.

(* ================================================================== *)
(** ** class BotApp *)

Inductive MaskAction : Type := mask | unmask.

Section BotApp.

Variable options : BotAppOptions.
Variable t : Languages.

Local Open Scope async_scope.

(** [maskBotToken(text, action)].  [None]: building the regular
    expression failed (see [RegExp.parsePattern]). *)
Definition maskBotToken (text : string) (action : MaskAction) : option string :=
  match action with
  | mask => RegExp.replace text (botToken options) "${{BOT_TOKEN}}"
  | unmask => RegExp.replace text "${{BOT_TOKEN}}" (botToken options)
  end.

Definition reply (s : string) : Async unit := emit (Reply s).
Definition insert (row : IMessageEntity) : Async unit := emit (Insert row).
Definition insertBatch (rows : list IMessageEntity) : Async unit :=
  emit (InsertBatch rows).
Definition delay (ms : Z) : Async unit := emit (Delay ms).

(** A value computed by code that may throw before anything is awaited. *)
Definition orThrow {A : Type} (v : option A) : Async A :=
  match v with
  | Some a => ret a
  | None => throw
  end.

Definition handlePhoto (ctx : Context) (aiClient : option OpenAIClient)
           (photoUrl : string) (caption : option string) : Async unit :=
  reply (readingImage t ++ "...") ;;
  let incomingMessages := ifTruthy caption (fun c => [c]) [] in
  ifTruthy caption
    (fun c =>
       insert (init {| payload := c;
                       userId := Js.String_ (from_id ctx);
                       senderId := Js.String_ (from_id ctx);
                       type := type_text |} None))
    (ret tt) ;;
  masked <- orThrow (maskBotToken photoUrl mask) ;;
  insert (init {| payload := masked;
                  userId := Js.String_ (from_id ctx);
                  senderId := Js.String_ (from_id ctx);
                  type := type_photo |} None) ;;
  ai <- orThrow aiClient ;;
  emit (ChatWithImage "friend" incomingMessages photoUrl) ;;
  let message := chatWithImage ai "friend" incomingMessages photoUrl in
  ifTruthy message
    (fun m =>
       reply m ;;
       insert (init {| payload := m;
                       userId := Js.String_ (from_id ctx);
                       senderId := Js.String_ (from_id ctx);
                       type := type_text |} None))
    (reply (sorryICannotUnderstand t)).

(** The [for ... of] loop of [handleMessageText]; it returns the final
    value of [countNoResponse]. *)
Fixpoint deliver (messages : list string) (countNoResponse : nat) : Async nat :=
  match messages with
  | [] => ret countNoResponse
  | message :: rest =>
      if negb (Js.truthy (Some message)) then
        deliver rest (S countNoResponse)
      else
        delay 100 ;;
        reply message ;;
        deliver rest countNoResponse
  end.

Definition handleMessageText (ctx : Context) (aiClient : option OpenAIClient)
           (incomingMessage replyToMessage : option string) : Async unit :=
  match aiClient with
  | None => reply (sorryICannotUnderstand t ++ " (aiClient is not available)")
  | Some ai =>
      ifTruthy incomingMessage
        (fun incoming =>
           let previousMessage :=
             ifTruthy replyToMessage (fun r => [("Previous message: " ++ r)%string]) [] in
           emit (Chat "friend" [incoming] previousMessage) ;;
           let messages := chat ai "friend" [incoming] previousMessage in
           (* messages.join('\\n'): the separator is the two code units
              backslash and n *)
           insert (init {| payload := Js.join "\n" messages;
                           userId := Js.String_ (from_id ctx);
                           senderId := Js.String_ (Some 0%Z);
                           type := type_text |} None) ;;
           countNoResponse <- deliver messages 0 ;;
           if Nat.eqb countNoResponse (List.length messages) then
             reply (sorryICannotUnderstand t)
           else ret tt)
        (reply "Please send a text message")
  end.

Definition isUndefined {A : Type} (v : option A) : bool :=
  match v with None => true | Some _ => false end.

Definition allMessagesHandler (ctx : Context) (aiClient : option OpenAIClient)
           (telegram : TelegramApiClient) : Async unit :=
  (* classifying the message type *)
  filePath <- match option_map msg_photo (message ctx) with
           | Some (Some _) => emit GetFile ;; ret (file_path (getFile_result ctx))
           | _ => ret None
           end ;;
  let messages :=
    {| replyToMessage :=
         match message ctx with
         | Some m =>
             match reply_to_message m with
             | Some r => reply_text r
             | None => None
             end
         | None => None
         end;
       text := match message ctx with Some m => msg_text m | None => None end;
       caption := match message ctx with Some m => msg_caption m | None => None end;
       photo := filePath |} in
  if isUndefined (text messages) && isUndefined (caption messages)
     && isUndefined (photo messages) then
    reply (sorryICannotUnderstandMessageType t)
  else
    let incomingMessage := Js.or (text messages) (caption messages) in
    ifTruthy (photo messages)
      (fun p =>
         let photoUrl := getFileUrl telegram p in
         handlePhoto ctx aiClient photoUrl incomingMessage)
      (if negb (Js.truthy incomingMessage) || isUndefined (from_id ctx) then
         reply (sorryICannotUnderstand t)
       else
         (* past the guard, incomingMessage is a non-empty string *)
         insert (init {| payload := ifTruthy incomingMessage (fun m => m) "";
                         userId := Js.String_ (from_id ctx);
                         senderId := Js.String_ (from_id ctx);
                         type := type_text |} None) ;;
         handleMessageText ctx aiClient incomingMessage (replyToMessage messages)).

(** The callback registered by [init()] on ['message']. *)
Definition onMessage (ctx : Context) : Async unit :=
  allMessagesHandler ctx (Some (aiClient options))
                     (new_TelegramApiClient (botToken options)).

(** The [for] loop of [saveTextMessages], from index [order] on. *)
Fixpoint messageRowsFrom (ctx : Context) (messages : list string)
         (senderId : Z) (order : nat) : list IMessageEntity :=
  match messages with
  | [] => []
  | m :: rest =>
      init {| payload := m;
              type := type_text;
              senderId := Js.String_of_number senderId;
              userId := Js.String_ (from_id ctx) |} (Some order)
      :: messageRowsFrom ctx rest senderId (S order)
  end.

Definition saveTextMessages (ctx : Context) (messages : list string)
           (senderId : Z) : Async unit :=
  let messageRows := messageRowsFrom ctx messages senderId 0 in
  insertBatch (map (fun message => message) messageRows).

End BotApp.

(* ================================================================== *)
(** ** Definitions used to state the properties *)

(** The [messages] object [allMessagesHandler] builds for an update. *)
Definition messagesOf (ctx : Context) : TelegramMessageType :=
  match message ctx with
  | Some m =>
      {| replyToMessage :=
           match reply_to_message m with
           | Some r => reply_text r
           | None => None
           end;
         text := msg_text m;
         caption := msg_caption m;
         photo := match msg_photo m with
                  | Some _ => file_path (getFile_result ctx)
                  | None => None
                  end |}
  | None =>
      {| replyToMessage := None; text := None; caption := None; photo := None |}
  end.

(** [messages.text || messages.caption]. *)
Definition incomingOf (ctx : Context) : option string :=
  Js.or (text (messagesOf ctx)) (caption (messagesOf ctx)).

(** The update is handled by [handlePhoto]. *)
Definition photoBranch (ctx : Context) : bool :=
  Js.truthy (photo (messagesOf ctx)).

(** The update reaches [handleMessageText]: no photo, a text or caption,
    and a sender. *)
Definition textBranch (ctx : Context) : bool :=
  negb (photoBranch ctx) && Js.truthy (incomingOf ctx)
  && negb (isUndefined (from_id ctx)).

Definition isEmpty (s : string) : bool := negb (Js.truthy (Some s)).

(** What the delivery loop awaits for a list of outputs. *)
Definition deliveryEvents (outputs : list string) : list Event :=
  flat_map (fun m => if isEmpty m then [] else [Delay 100; Reply m]) outputs.

Definition row (p u s : string) (ty : MessageType) : IMessageEntity :=
  init {| payload := p; userId := u; senderId := s; type := ty |} None.

(** [ctx.getFile()] is awaited when the update holds a photo array. *)
Definition getFileEvents (ctx : Context) : list Event :=
  match option_map msg_photo (message ctx) with
  | Some (Some _) => [GetFile]
  | _ => []
  end.

(** The download URL [allMessagesHandler] hands to [handlePhoto]. *)
Definition photoUrlOf (options : BotAppOptions) (ctx : Context) : string :=
  getFileUrl (new_TelegramApiClient (botToken options))
             (ifTruthy (photo (messagesOf ctx)) (fun p => p) "").

(** The context list of [handleMessageText], by cases on the text of the
    message replied to. *)
Definition previousMessageOf (ctx : Context) : list string :=
  match replyToMessage (messagesOf ctx) with
  | None => []
  | Some EmptyString => []
  | Some r => [("Previous message: " ++ r)%string]
  end.

(** What the completion client answers to a text-branch update. *)
Definition outputsOf (options : BotAppOptions) (ctx : Context) : list string :=
  chat (aiClient options) "friend"
       [ifTruthy (incomingOf ctx) (fun m => m) ""] (previousMessageOf ctx).

(** The replies the delivery loop and the check after it send. *)
Definition deliveryReplies (t : Languages) (outputs : list string) : list string :=
  filter (fun m => negb (isEmpty m)) outputs
  ++ (if forallb isEmpty outputs then [sorryICannotUnderstand t] else []).

(** A character that stands for itself in a pattern, whatever follows. *)
Definition literalChar (c : ascii) : bool :=
  negb (Ascii.eqb c "^" || Ascii.eqb c "$" || Ascii.eqb c "."
        || RegExp.startsOtherSyntax c || Ascii.eqb c "{")%char.

(** The token, read as the source of a regular expression, is accepted. *)
Definition tokenCompiles (options : BotAppOptions) : bool :=
  match RegExp.parsePattern (list_ascii_of_string (botToken options)) with
  | Some _ => true
  | None => false
  end.

(** A token that is not empty, is made of characters that stand for
    themselves in a pattern, and whose first character does not occur in
    the placeholder.  Every token the platform issues (digits, a colon,
    then letters, digits, underscores and dashes) is of this kind. *)
Definition plainToken (token : string) : bool :=
  match list_ascii_of_string token with
  | [] => false
  | c :: w =>
      forallb literalChar (c :: w)
      && negb (existsb (Ascii.eqb c) (list_ascii_of_string "{{BOT_TOKEN}}"))
  end.

(** The token format of the platform: the bot id in digits, a colon, and
    a secret of letters, digits, underscores and dashes. *)
Definition isSecretChar (c : ascii) : bool :=
  let n := nat_of_ascii c in
  ((48 <=? n) && (n <=? 57) || (65 <=? n) && (n <=? 90)
   || (97 <=? n) && (n <=? 122) || (n =? 95) || (n =? 45))%nat.

Definition platformToken (token : string) : bool :=
  match list_ascii_of_string token with
  | [] => false
  | c :: w =>
      RegExp.isDigit c
      && forallb (fun x => isSecretChar x || Ascii.eqb x ":"%char) w
  end.

(** The line feed character. *)
Definition lineFeed : string := String (ascii_of_nat 10) EmptyString.

(** ** Sample configuration and updates *)

Definition sampleLanguages : Languages :=
  {| yourAre := "You are";
     readingImage := "Reading image";
     sorryICannotUnderstand := "Sorry, I cannot understand";
     sorryICannotUnderstandMessageType := "Sorry, I cannot understand this message type" |}.

Definition sampleAiClient : OpenAIClient :=
  {| chat := fun _ _ _ => ["hi"; "there"];
     chatWithImage := fun _ _ _ => Some "a cat" |}.

Definition sampleOptions : BotAppOptions :=
  {| botToken := "123456:ABC-DEF1234ghIkl-zyx57W2v1u123ew11";
     aiClient := sampleAiClient |}.

Definition optionsWithOutputs (outputs : list string) : BotAppOptions :=
  {| botToken := "123456:ABC-DEF1234ghIkl-zyx57W2v1u123ew11";
     aiClient := {| chat := fun _ _ _ => outputs;
                    chatWithImage := fun _ _ _ => None |} |}.

(** A text message from user 42, in reply to a message saying "ping". *)
Definition textReplyUpdate : Context :=
  {| from_id := Some 42%Z;
     message := Some {| msg_text := Some "hello";
                        msg_caption := None;
                        msg_photo := None;
                        reply_to_message := Some {| reply_text := Some "ping" |} |};
     getFile_result := {| file_path := None |} |}.

(** A photo with the caption "look" from user 42. *)
Definition captionedPhotoUpdate : Context :=
  {| from_id := Some 42%Z;
     message := Some {| msg_text := None;
                        msg_caption := Some "look";
                        msg_photo := Some ["AgACAgQ"];
                        reply_to_message := None |};
     getFile_result := {| file_path := Some "photos/file_1.jpg" |} |}.

(** A photo whose caption is the empty string. *)
Definition emptyCaptionPhotoUpdate : Context :=
  {| from_id := Some 42%Z;
     message := Some {| msg_text := None;
                        msg_caption := Some "";
                        msg_photo := Some ["AgACAgQ"];
                        reply_to_message := None |};
     getFile_result := {| file_path := Some "photos/file_1.jpg" |} |}.

(** An update with neither text, caption nor photo (a sticker, say). *)
Definition stickerUpdate : Context :=
  {| from_id := Some 42%Z;
     message := Some {| msg_text := None;
                        msg_caption := None;
                        msg_photo := None;
                        reply_to_message := None |};
     getFile_result := {| file_path := None |} |}.

(* ================================================================== *)
(** ** The deployment script and the environment schema

    [postDeploy] (the script that sets the webhook after a deployment)
    and the [ALLOWED_USER_IDS] entry of [envSchema]. *)

Module JsText.

(** WhiteSpace and LineTerminator, in the code units a [string] holds:
    TAB, LF, VT, FF, CR, SP and NBSP. *)
Definition isWhiteSpace (c : ascii) : bool :=
  let n := nat_of_ascii c in
  ((n =? 9) || (n =? 10) || (n =? 11) || (n =? 12) || (n =? 13)
   || (n =? 32) || (n =? 160))%nat.

Fixpoint trimStart (s : list ascii) : list ascii :=
  match s with
  | c :: r => if isWhiteSpace c then trimStart r else s
  | [] => []
  end.

Definition trimEnd (s : list ascii) : list ascii := rev (trimStart (rev s)).

(** [String.prototype.trim]. *)
Definition trim (s : list ascii) : list ascii := trimEnd (trimStart s).

(** [s.split(sep)] for a separator of one code unit. *)
Fixpoint split (sep : ascii) (s : list ascii) : list (list ascii) :=
  match s with
  | [] => [[]]
  | c :: r =>
      if Ascii.eqb c sep then [] :: split sep r
      else match split sep r with
           | piece :: pieces => (c :: piece) :: pieces
           | [] => [[c]]
           end
  end.

(** A JavaScript number, as far as the model goes: an integer that a
    double holds exactly, or a number the model does not follow (NaN, a
    fraction, an infinity, an integer beyond 2^53). *)
Inductive JsNumber : Type :=
| Int (z : Z)
| NotModelled.

(** [Number(s)] for a string: white space is stripped at both ends; the
    empty string is 0; a string of decimal digits is its value, exact up
    to 2^53.  Signs, fractions, exponents, other radices, [Infinity] and
    strings that are no numeric literal are not followed. *)
Definition Number_ (s : list ascii) : JsNumber :=
  match trim s with
  | [] => Int 0
  | c :: r =>
      match NilEmpty.uint_of_string (string_of_list_ascii (c :: r)) with
      | Some d =>
          if (Z.of_uint d <=? 9007199254740992)%Z then Int (Z.of_uint d)
          else NotModelled
      | None => NotModelled
      end
  end.

(** [String.prototype.replace(searchString, replaceValue)] with a string
    pattern: the first occurrence of [search], looked for from [rest] on,
    is replaced by the expansion of the template. *)
Fixpoint replaceStringFrom (search template whole : list ascii) (pos : nat)
         (rest : list ascii) {struct rest} : list ascii :=
  if Js.startsWith search rest then
    RegExp.GetSubstitution search (firstn pos whole)
                           (skipn (List.length search) rest) template
    ++ skipn (List.length search) rest
  else
    match rest with
    | [] => []
    | c :: r => c :: replaceStringFrom search template whole (S pos) r
    end.

Definition replaceString (text search replacement : string) : string :=
  string_of_list_ascii
    (replaceStringFrom (list_ascii_of_string search)
                       (list_ascii_of_string replacement)
                       (list_ascii_of_string text) 0
                       (list_ascii_of_string text)).

End JsText.

(** A value of type [unknown], as the preprocess callback tells them
    apart. *)
Inductive Unknown : Type :=
| VUndefined
| VNull
| VNumber (n : JsText.JsNumber)
| VString (s : string)
| VOther.                                   (* a boolean, an object, ... *)

(** The callback given to [z.preprocess] for [ALLOWED_USER_IDS]. *)
Definition ALLOWED_USER_IDS_preprocess (val : Unknown) : list JsText.JsNumber :=
  match val with
  | VString EmptyString => []
  | VUndefined => []
  | VNull => []
  | VNumber n => [n]
  | VString s =>
      map JsText.Number_
          (JsText.split ","%char (JsText.trim (list_ascii_of_string s)))
  | VOther => []
  end.

(** What [getEnv] returns: the parsed environment. *)
Record Env : Type := {
  BOT_TOKEN : string;
  BOT_INFO : string;
  ALLOWED_USER_IDS : list JsText.JsNumber;
  TELEGRAM_WEBHOOK_URL : option string;
  PROTECTED_BOT : bool;
  WEBHOOK_SECRET : option string;
  OPENAI_API_KEY : string
}.

(** What the deployment script does to the outside. *)
Inductive ScriptEvent : Type :=
| ConsoleLog (line : string)
| Fetch (url : string).

(** [postDeploy()], once [getEnv(process.env)] has returned [env].  With
    no webhook URL the call of [replace] on [undefined] raises a
    TypeError before anything is logged or fetched. *)
Definition postDeploy (env : Env) : list ScriptEvent * Completion unit :=
  match TELEGRAM_WEBHOOK_URL env with
  | None => ([], Thrown)
  | Some url =>
      ([ConsoleLog ("Setting webhook to "
                    ++ JsText.replaceString url (BOT_TOKEN env) "***");
        Fetch ("https://api.telegram.org/bot" ++ BOT_TOKEN env
               ++ "/setWebhook?url=" ++ url)],
       Returned tt)
  end%string.

(** ** More definitions used to state properties *)

(** None of text, caption and photo was extracted. *)
Definition unclassifiable (ctx : Context) : bool :=
  isUndefined (text (messagesOf ctx)) && isUndefined (caption (messagesOf ctx))
  && isUndefined (photo (messagesOf ctx)).

(** Every completion call of the trace comes after a store write. *)
Fixpoint persistedBeforeCompletion (written : bool) (tr : list Event) : bool :=
  match tr with
  | [] => true
  | Insert _ :: rest => persistedBeforeCompletion true rest
  | InsertBatch _ :: rest => persistedBeforeCompletion true rest
  | Chat _ _ _ :: rest => written && persistedBeforeCompletion written rest
  | ChatWithImage _ _ _ :: rest => written && persistedBeforeCompletion written rest
  | _ :: rest => persistedBeforeCompletion written rest
  end.

(** The number of completion calls, of either kind, in a trace. *)
Definition completionCalls (tr : list Event) : nat :=
  List.length (chatCalls tr) + List.length (chatWithImageCalls tr).

(** StringIndexOf from index 0: where [w] first occurs in [l], if it
    does. *)
Fixpoint indexOfUnits (w l : list ascii) {struct l} : option nat :=
  if Js.startsWith w l then Some 0
  else
    match l with
    | [] => None
    | _ :: r => option_map S (indexOfUnits w r)
    end.

(** [s.indexOf(w)], with [None] for -1. *)
Definition String_indexOf (s w : string) : option nat :=
  indexOfUnits (list_ascii_of_string w) (list_ascii_of_string s).

(** [w] does not occur in [s] again after its first occurrence (nor at
    all, if it has none). *)
Definition noOccurrenceAfterFirst (s w : string) : bool :=
  match String_indexOf s w with
  | None => true
  | Some i =>
      negb (Js.includes (list_ascii_of_string w)
                        (skipn (i + String.length w) (list_ascii_of_string s)))
  end.


(* ================================================================== *)
(** * Properties *)

(** ** The replace loop on examples *)

Example replace_literal :
  RegExp.replace "xabyabz" "ab" "${{T}}" = Some "x${{T}}y${{T}}z".
Proof. reflexivity. Qed.

Example replace_end_anchor : RegExp.replace "abc" "$" "X" = Some "abcX".
Proof. reflexivity. Qed.

Example replace_empty_pattern : RegExp.replace "abc" "" "X" = Some "XaXbXcX".
Proof. reflexivity. Qed.

Example replace_start_anchor : RegExp.replace "abc" "^" "[$&$$]" = Some "[$]abc".
Proof. reflexivity. Qed.

Example replace_dot : RegExp.replace "a1b2" "b." "<$&|$`|$'>" = Some "a1<b2|a1|>".
Proof. reflexivity. Qed.

(** ** Prefixes and occurrences *)

Lemma startsWith_nil_r (w : list ascii) :
  Js.startsWith w [] = true -> w = [].
Proof. destruct w; simpl; [reflexivity | discriminate]. Qed.

Lemma startsWith_cons (a b : ascii) (w l : list ascii) :
  Js.startsWith (a :: w) (b :: l) = true <-> a = b /\ Js.startsWith w l = true.
Proof.
  simpl. rewrite andb_true_iff, Ascii.eqb_eq. tauto.
Qed.

Lemma startsWith_split (w l : list ascii) :
  Js.startsWith w l = true -> l = w ++ skipn (List.length w) l.
Proof.
  revert l. induction w as [|a w IH]; intros l H.
  - reflexivity.
  - destruct l as [|b l]; [discriminate|].
    apply startsWith_cons in H. destruct H as [-> H].
    simpl. f_equal. now apply IH.
Qed.

Lemma startsWith_app (w r : list ascii) : Js.startsWith w (w ++ r) = true.
Proof.
  induction w as [|a w IH]; simpl; [reflexivity|].
  now rewrite Ascii.eqb_refl.
Qed.

Lemma startsWith_length (w l : list ascii) :
  Js.startsWith w l = true -> List.length w <= List.length l.
Proof.
  revert l. induction w as [|a w IH]; intros l H; simpl; [lia|].
  destruct l as [|b l]; [discriminate|].
  apply startsWith_cons in H. destruct H as [_ H].
  apply IH in H. simpl. lia.
Qed.

Lemma includes_cons (w : list ascii) (c : ascii) (l : list ascii) :
  Js.includes w (c :: l) = Js.startsWith w (c :: l) || Js.includes w l.
Proof. reflexivity. Qed.

Lemma includes_false_startsWith (w l : list ascii) :
  Js.includes w l = false -> Js.startsWith w l = false.
Proof.
  destruct l; simpl; intros H; apply orb_false_iff in H; tauto.
Qed.

(** An occurrence of [t0 :: tk] cannot start inside a stretch that does
    not hold [t0]. *)
Lemma includes_skip (t0 : ascii) (tk a b : list ascii) :
  (forall c, In c a -> c <> t0) ->
  Js.includes (t0 :: tk) (a ++ b) = Js.includes (t0 :: tk) b.
Proof.
  induction a as [|x a IH]; intros Ha; [reflexivity|].
  change ((x :: a) ++ b) with (x :: (a ++ b)).
  rewrite includes_cons.
  rewrite IH by (intros c Hc; apply Ha; now right).
  replace (Js.startsWith (t0 :: tk) (x :: a ++ b)) with false; [reflexivity|].
  symmetry. simpl. apply andb_false_iff. left.
  apply Ascii.eqb_neq. intros E. apply (Ha x); [now left | now symmetry].
Qed.

(** ** The regular-expression fragment *)

Section RegExpFacts.

Import RegExp.


Lemma parsePattern_literal (w : list ascii) :
  forallb literalChar w = true ->
  parsePattern w = Some (map TChar w).
Proof.
  induction w as [|c w IH]; intros H; [reflexivity|].
  simpl in H. apply andb_true_iff in H. destruct H as [Hc Hw].
  unfold literalChar in Hc. apply negb_true_iff in Hc.
  repeat (apply orb_false_iff in Hc; destruct Hc as [Hc ?]).
  simpl. rewrite Hc.
  repeat match goal with H : _ = false |- _ => rewrite H; clear H end.
  simpl. now rewrite (IH Hw).
Qed.

Lemma literalChar_not_dollar (w : list ascii) :
  forallb literalChar w = true -> forall c, In c w -> c <> "$"%char.
Proof.
  intros H c Hc ->. rewrite forallb_forall in H.
  specialize (H _ Hc). discriminate H.
Qed.

Lemma matchTerms_literal (w : list ascii) (pos : nat) (rest : list ascii) :
  matchTerms (map TChar w) pos rest =
  if Js.startsWith w rest then Some (skipn (List.length w) rest) else None.
Proof.
  revert pos rest. induction w as [|a w IH]; intros pos rest; [reflexivity|].
  destruct rest as [|x rest]; [reflexivity|].
  simpl. rewrite (Ascii.eqb_sym x a).
  destruct (Ascii.eqb a x); simpl; [apply IH | reflexivity].
Qed.

(** The pattern of the [unmask] action starts with the assertion [$]
    and goes on with a pattern character: it matches nowhere. *)
Lemma matchTerms_end_then_char (c : ascii) (ts : list Term) (pos : nat)
      (rest : list ascii) :
  matchTerms (TAssertEnd :: TChar c :: ts) pos rest = None.
Proof. destruct rest; reflexivity. Qed.

(** A pattern that matches nowhere in [rest] leaves it as it is. *)
Lemma replaceFrom_no_match (ts : list Term) (template whole : list ascii) :
  forall fuel pos rest,
    (forall p r, matchTerms ts p r = None) ->
    replaceFrom fuel ts template whole pos rest = rest.
Proof.
  induction fuel as [|fuel IH]; intros pos rest H; [reflexivity|].
  simpl. rewrite H. destruct rest as [|c rest]; [reflexivity|].
  now rewrite IH.
Qed.

(** The loop ends within its fuel: any two amounts of fuel above the
    length of what is left to scan give the same result. *)
Lemma replaceFrom_fuel (ts : list Term) (template whole : list ascii) :
  forall fuel1 fuel2 pos rest,
    List.length rest < fuel1 -> List.length rest < fuel2 ->
    replaceFrom fuel1 ts template whole pos rest
    = replaceFrom fuel2 ts template whole pos rest.
Proof.
  induction fuel1 as [|fuel1 IH]; intros fuel2 pos rest H1 H2; [lia|].
  destruct fuel2 as [|fuel2]; [lia|].
  cbn [replaceFrom].
  destruct (matchTerms ts pos rest) as [rest'|].
  - destruct (List.length rest - List.length rest') eqn:Elen.
    + destruct rest as [|c rest1]; [reflexivity|].
      f_equal. f_equal. apply IH; simpl in *; lia.
    + f_equal. apply IH; lia.
  - destruct rest as [|c rest1]; [reflexivity|].
    f_equal. apply IH; simpl in *; lia.
Qed.

Variable tok : list ascii.
Variable template : list ascii.

(** The replacement template holds no [$$], [$&], [$`] or [$']: every
    match is replaced by the template itself. *)
Hypothesis template_plain :
  forall matched before after,
    GetSubstitution matched before after template = template.

(** One step of the loop for a literal, non-empty pattern. *)
Lemma replaceFrom_literal_step (fuel : nat) (whole : list ascii) (pos : nat)
      (rest : list ascii) :
  tok <> [] ->
  replaceFrom (S fuel) (map TChar tok) template whole pos rest =
  if Js.startsWith tok rest then
    template ++ replaceFrom fuel (map TChar tok) template whole
                            (pos + List.length tok)
                            (skipn (List.length tok) rest)
  else
    match rest with
    | [] => []
    | c :: rest1 => c :: replaceFrom fuel (map TChar tok) template whole (S pos) rest1
    end.
Proof.
  intros Hne. cbn [replaceFrom]. rewrite matchTerms_literal.
  destruct (Js.startsWith tok rest) eqn:E; [|reflexivity].
  pose proof (startsWith_length _ _ E) as Hlen.
  rewrite length_skipn.
  replace (List.length rest - (List.length rest - List.length tok))
    with (List.length tok) by lia.
  rewrite template_plain.
  destruct tok as [|t0 tk]; [congruence|]. reflexivity.
Qed.

End RegExpFacts.

(** ** Replacing a literal token by a placeholder that starts with [$] *)

Section LiteralMask.

Import RegExp.

Variable t0 : ascii.
Variable tk : list ascii.
Variable ptail : list ascii.

Let tok : list ascii := t0 :: tk.
Let template : list ascii := "$"%char :: ptail.

Hypothesis template_plain :
  forall matched before after,
    GetSubstitution matched before after template = template.
Hypothesis tok_no_dollar : forall c, In c tok -> c <> "$"%char.
Hypothesis head_not_in_ptail : forall c, In c ptail -> c <> t0.

Let step := replaceFrom_literal_step tok template template_plain.

Lemma tok_nonempty : tok <> [].
Proof. discriminate. Qed.

(** A dollar-free word that starts the output started the input. *)
Lemma startsWith_replaceFrom (whole : list ascii) :
  forall fuel w pos rest,
    (forall c, In c w -> c <> "$"%char) ->
    List.length rest < fuel ->
    Js.startsWith w (replaceFrom fuel (map TChar tok) template whole pos rest) = true ->
    Js.startsWith w rest = true.
Proof.
  induction fuel as [|fuel IH]; intros w pos rest Hw Hlen H; [lia|].
  destruct w as [|a w]; [reflexivity|].
  rewrite (step fuel whole pos rest tok_nonempty) in H.
  destruct (Js.startsWith tok rest) eqn:E.
  - exfalso. unfold template in H. simpl in H.
    apply andb_true_iff in H. destruct H as [H _].
    apply Ascii.eqb_eq in H. apply (Hw a); [now left | exact H].
  - destruct rest as [|c rest]; [discriminate H|].
    apply startsWith_cons in H. destruct H as [-> H].
    apply startsWith_cons. split; [reflexivity|].
    apply (IH w (S pos) rest); [| simpl in Hlen; lia | exact H].
    intros x Hx. apply Hw. now right.
Qed.

(** The output holds no occurrence of the token. *)
Lemma includes_replaceFrom (whole : list ascii) :
  forall fuel pos rest,
    List.length rest < fuel ->
    Js.includes tok (replaceFrom fuel (map TChar tok) template whole pos rest) = false.
Proof.
  induction fuel as [|fuel IH]; intros pos rest Hlen; [lia|].
  pose proof (step fuel whole pos rest tok_nonempty) as Hstep.
  destruct (Js.startsWith tok rest) eqn:E.
  - rewrite Hstep. unfold template.
    change (("$"%char :: ptail) ++ ?x) with ("$"%char :: (ptail ++ x)).
    rewrite includes_cons. apply orb_false_iff. split.
    + unfold tok. simpl. apply andb_false_iff. left.
      apply Ascii.eqb_neq. apply tok_no_dollar. now left.
    + unfold tok at 1. rewrite includes_skip by exact head_not_in_ptail.
      apply IH. rewrite length_skipn.
      apply startsWith_length in E. unfold tok in E. simpl in E. simpl. lia.
  - destruct rest as [|c rest].
    + rewrite Hstep. reflexivity.
    + destruct (Js.startsWith tok
                  (replaceFrom (S fuel) (map TChar tok) template whole pos (c :: rest)))
        eqn:E2.
      * apply startsWith_replaceFrom in E2; [congruence | exact tok_no_dollar | exact Hlen].
      * rewrite Hstep in E2 |- *. rewrite includes_cons, E2. simpl.
        apply IH. simpl in Hlen. lia.
Qed.

(** A text without occurrence of the token is left as it is. *)
Lemma replaceFrom_no_occurrence (whole : list ascii) :
  forall fuel pos rest,
    List.length rest < fuel ->
    Js.includes tok rest = false ->
    replaceFrom fuel (map TChar tok) template whole pos rest = rest.
Proof.
  induction fuel as [|fuel IH]; intros pos rest Hlen H; [lia|].
  rewrite (step fuel whole pos rest tok_nonempty).
  rewrite (includes_false_startsWith _ _ H).
  destruct rest as [|c rest]; [reflexivity|].
  rewrite includes_cons in H. apply orb_false_iff in H. destruct H as [_ H].
  rewrite IH; [reflexivity | simpl in Hlen; lia | exact H].
Qed.

Lemma replaceAll_includes (whole : list ascii) :
  Js.includes tok (replaceAll (map TChar tok) template whole) = false.
Proof. apply includes_replaceFrom. lia. Qed.

Lemma replaceAll_idempotent (whole : list ascii) :
  replaceAll (map TChar tok) template
             (replaceAll (map TChar tok) template whole)
  = replaceAll (map TChar tok) template whole.
Proof.
  unfold replaceAll at 1.
  apply replaceFrom_no_occurrence; [lia | apply replaceAll_includes].
Qed.

End LiteralMask.

(** ** The monad of awaited calls *)

Arguments bind : simpl never.
Arguments emit : simpl never.
Arguments ret : simpl never.
Arguments reply : simpl never.
Arguments insert : simpl never.
Arguments handlePhoto : simpl never.
Arguments handleMessageText : simpl never.
Arguments getFileUrl : simpl never.
Arguments Js.or : simpl never.
Arguments Js.truthy : simpl never.
Arguments ifTruthy : simpl never.

Lemma bind_Returned {A B : Type} (tr : list Event) (a : A) (k : A -> Async B) :
  bind (tr, Returned a) k = (tr ++ fst (k a), snd (k a)).
Proof. unfold bind. now destruct (k a). Qed.

Lemma bind_ret {A B : Type} (a : A) (k : A -> Async B) : bind (ret a) k = k a.
Proof. unfold ret, bind. now destruct (k a). Qed.

Lemma bind_emit {B : Type} (e : Event) (k : unit -> Async B) :
  bind (emit e) k = (e :: fst (k tt), snd (k tt)).
Proof. unfold emit. now rewrite bind_Returned. Qed.

Lemma emit_then_ret {A : Type} (e : Event) (a : A) :
  bind (emit e) (fun _ => ret a) = ([e], Returned a).
Proof. reflexivity. Qed.

Lemma bind_throw {A B : Type} (k : A -> Async B) : bind throw k = throw.
Proof. reflexivity. Qed.


Lemma isEmpty_iff (s : string) : isEmpty s = true <-> s = "".
Proof. unfold isEmpty. destruct s; simpl; split; congruence. Qed.

Lemma ifTruthy_String {A : Type} (c : ascii) (s : string) (f : string -> A) (g : A) :
  ifTruthy (Some (String c s)) f g = f (String c s).
Proof. reflexivity. Qed.

Lemma ifTruthy_truthy {A : Type} (v : option string) (f : string -> A) (g : A) :
  Js.truthy v = true -> exists s, v = Some s /\ s <> "" /\ ifTruthy v f g = f s.
Proof.
  destruct v as [[|c s]|]; simpl; try discriminate.
  intros _. exists (String c s). repeat split. discriminate.
Qed.

Lemma ifTruthy_falsy {A : Type} (v : option string) (f : string -> A) (g : A) :
  Js.truthy v = false -> ifTruthy v f g = g.
Proof. destruct v as [[|c s]|]; simpl; intros H; try discriminate H; reflexivity. Qed.

Section BotAppFacts.

Variable options : BotAppOptions.
Variable t : Languages.

Lemma deliver_spec (messages : list string) :
  forall n,
    deliver messages n =
    (deliveryEvents messages,
     Returned (n + List.length (filter isEmpty messages))).
Proof.
  induction messages as [|m rest IH]; intros n.
  - simpl. unfold ret. f_equal. f_equal. lia.
  - cbn [deliver deliveryEvents flat_map filter].
    fold (isEmpty m). destruct (isEmpty m) eqn:E.
    + rewrite IH. simpl. f_equal. f_equal. lia.
    + unfold delay, reply. rewrite !bind_emit, IH. reflexivity.
Qed.

Lemma count_empty_all (messages : list string) :
  Nat.eqb (List.length (filter isEmpty messages)) (List.length messages)
  = forallb isEmpty messages.
Proof.
  induction messages as [|m rest IH]; [reflexivity|].
  simpl. destruct (isEmpty m); simpl; [exact IH|].
  apply Nat.eqb_neq.
  pose proof (filter_length_le isEmpty rest). lia.
Qed.

(** What [handleMessageText] awaits once it has a client and a message. *)
Lemma handleMessageText_spec (ctx : Context) (ai : OpenAIClient)
      (incoming : string) (replyTo : option string) :
  incoming <> "" ->
  let previousMessage :=
    ifTruthy replyTo (fun r => [("Previous message: " ++ r)%string]) [] in
  let messages := chat ai "friend" [incoming] previousMessage in
  handleMessageText t ctx (Some ai) (Some incoming) replyTo =
  ([Chat "friend" [incoming] previousMessage;
    Insert (row (Js.join "\n" messages) (Js.String_ (from_id ctx)) "0" type_text)]
     ++ deliveryEvents messages
     ++ (if forallb isEmpty messages
         then [Reply (sorryICannotUnderstand t)] else []),
   Returned tt).
Proof.
  intros Hne previousMessage messages.
  unfold handleMessageText.
  destruct incoming as [|c s]; [congruence|].
  rewrite ifTruthy_String. fold previousMessage. fold messages.
  unfold insert. rewrite !bind_emit.
  rewrite deliver_spec, bind_Returned. cbn [Nat.add].
  rewrite count_empty_all.
  destruct (forallb isEmpty messages); reflexivity.
Qed.


Lemma truthy_or (a b : option string) :
  Js.truthy (Js.or a b) = Js.truthy a || Js.truthy b.
Proof. unfold Js.or. destruct (Js.truthy a) eqn:E; [exact E | reflexivity]. Qed.

(** The text branch: the inbound row, then [handleMessageText]. *)
Lemma onMessage_text_branch (ctx : Context) :
  textBranch ctx = true ->
  exists incoming,
    incomingOf ctx = Some incoming /\ incoming <> "" /\
    onMessage options t ctx =
    bind (getFileEvents ctx ++
          [Insert (row incoming (Js.String_ (from_id ctx))
                       (Js.String_ (from_id ctx)) type_text)], Returned tt)
         (fun _ => handleMessageText t ctx (Some (aiClient options))
                     (Some incoming) (replyToMessage (messagesOf ctx))).
Proof.
  unfold textBranch, photoBranch. intros H.
  apply andb_true_iff in H. destruct H as [H Hfrom].
  apply andb_true_iff in H. destruct H as [Hphoto Hinc].
  apply negb_true_iff in Hphoto. apply negb_true_iff in Hfrom.
  destruct (ifTruthy_truthy (incomingOf ctx) (fun m => m) "" Hinc)
    as [incoming [Einc [Hne Eif]]].
  exists incoming. split; [exact Einc|]. split; [exact Hne|].
  unfold onMessage, allMessagesHandler, getFileEvents.
  unfold incomingOf, messagesOf in *.
  destruct ctx as [fid [m|] gf]; cbn in *.
  - destruct m as [tx cap ph rp]; cbn in *.
    assert (Hcls : isUndefined tx && isUndefined cap = false).
    { destruct tx as [tx|]; [reflexivity|].
      destruct cap as [cap|]; [reflexivity|]. discriminate Hinc. }
    destruct ph as [ph|]; cbn.
    + rewrite emit_then_ret, !bind_Returned. cbn. rewrite Hcls. cbn.
      rewrite (ifTruthy_falsy _ _ _ Hphoto).
      rewrite Hinc, Hfrom. cbn. rewrite Eif.
      unfold insert. rewrite bind_emit, Einc. reflexivity.
    + rewrite bind_ret, bind_Returned. cbn. rewrite Hcls. cbn.
      rewrite (ifTruthy_falsy None _ _ eq_refl).
      rewrite Hinc, Hfrom. cbn. rewrite Eif.
      unfold insert. rewrite bind_emit, Einc. reflexivity.
  - discriminate Hinc.
Qed.

(** The whole trace of a text-branch update. *)
Lemma text_branch_trace (ctx : Context) :
  textBranch ctx = true ->
  exists incoming,
    incomingOf ctx = Some incoming /\ incoming <> "" /\
    let previousMessage :=
      ifTruthy (replyToMessage (messagesOf ctx))
               (fun r => [("Previous message: " ++ r)%string]) [] in
    let messages := chat (aiClient options) "friend" [incoming] previousMessage in
    onMessage options t ctx =
    ((getFileEvents ctx ++
      [Insert (row incoming (Js.String_ (from_id ctx))
                   (Js.String_ (from_id ctx)) type_text)]) ++
     [Chat "friend" [incoming] previousMessage;
      Insert (row (Js.join "\n" messages) (Js.String_ (from_id ctx)) "0" type_text)]
     ++ deliveryEvents messages
     ++ (if forallb isEmpty messages
         then [Reply (sorryICannotUnderstand t)] else []),
     Returned tt).
Proof.
  intros H. destruct (onMessage_text_branch ctx H) as [incoming [E1 [Hne E2]]].
  exists incoming. split; [exact E1|]. split; [exact Hne|].
  intros previousMessage messages.
  rewrite E2, bind_Returned.
  rewrite (handleMessageText_spec ctx (aiClient options) incoming _ Hne).
  reflexivity.
Qed.


Lemma mask_defined (s : string) :
  tokenCompiles options = true -> exists masked, maskBotToken options s mask = Some masked.
Proof.
  unfold tokenCompiles, maskBotToken, RegExp.replace.
  destruct (RegExp.parsePattern _); [eauto | discriminate].
Qed.

Lemma handlePhoto_spec (ctx : Context) (photoUrl : string)
      (caption : option string) (masked : string) :
  maskBotToken options photoUrl mask = Some masked ->
  let uid := Js.String_ (from_id ctx) in
  let incomingMessages := ifTruthy caption (fun c => [c]) [] in
  handlePhoto options t ctx (Some (aiClient options)) photoUrl caption =
  ([Reply (readingImage t ++ "...")]
     ++ ifTruthy caption (fun c => [Insert (row c uid uid type_text)]) []
     ++ [Insert (row masked uid uid type_photo);
         ChatWithImage "friend" incomingMessages photoUrl]
     ++ ifTruthy (chatWithImage (aiClient options) "friend" incomingMessages photoUrl)
          (fun m => [Reply m; Insert (row m uid uid type_text)])
          [Reply (sorryICannotUnderstand t)],
   Returned tt).
Proof.
  intros Hmask uid incomingMessages.
  unfold handlePhoto. fold incomingMessages. fold uid.
  rewrite Hmask. unfold reply, insert, orThrow.
  rewrite bind_emit.
  assert (Hcap :
    ifTruthy caption
      (fun c => emit (Insert (init {| payload := c; userId := uid;
                                      senderId := uid; type := type_text |} None)))
      (ret tt)
    = (ifTruthy caption (fun c => [Insert (row c uid uid type_text)]) [],
       Returned tt)).
  { destruct caption as [[|c s]|]; reflexivity. }
  rewrite Hcap, bind_Returned, !bind_ret, !bind_emit.
  destruct (chatWithImage (aiClient options) "friend" incomingMessages photoUrl)
    as [[|c s]|]; cbn; rewrite <- ?app_assoc; reflexivity.
Qed.

(** The whole trace of a photo-branch update. *)
Lemma photo_branch_trace (ctx : Context) (masked : string) :
  photoBranch ctx = true ->
  maskBotToken options (photoUrlOf options ctx) mask = Some masked ->
  let uid := Js.String_ (from_id ctx) in
  let incomingMessages := ifTruthy (incomingOf ctx) (fun c => [c]) [] in
  onMessage options t ctx =
  ([GetFile; Reply (readingImage t ++ "...")]
     ++ ifTruthy (incomingOf ctx) (fun c => [Insert (row c uid uid type_text)]) []
     ++ [Insert (row masked uid uid type_photo);
         ChatWithImage "friend" incomingMessages (photoUrlOf options ctx)]
     ++ ifTruthy (chatWithImage (aiClient options) "friend" incomingMessages
                                (photoUrlOf options ctx))
          (fun m => [Reply m; Insert (row m uid uid type_text)])
          [Reply (sorryICannotUnderstand t)],
   Returned tt).
Proof.
  intros Hphoto Hmask uid incomingMessages. unfold photoBranch in Hphoto.
  assert (E : onMessage options t ctx =
              bind ([GetFile], Returned tt)
                   (fun _ => handlePhoto options t ctx (Some (aiClient options))
                                         (photoUrlOf options ctx) (incomingOf ctx))).
  { unfold onMessage, allMessagesHandler, photoUrlOf, incomingOf.
    unfold messagesOf in *.
    destruct ctx as [fid [m|] gf]; cbn in *; [|discriminate Hphoto].
    destruct m as [tx cap ph rp]; cbn in *.
    destruct ph as [ph|]; cbn in *; [|discriminate Hphoto].
    rewrite emit_then_ret, !bind_Returned.
    destruct (file_path gf) as [[|c s]|]; try discriminate Hphoto.
    cbn. rewrite !andb_false_r. rewrite !ifTruthy_String. reflexivity. }
  rewrite E, bind_Returned.
  rewrite (handlePhoto_spec ctx _ _ masked Hmask).
  reflexivity.
Qed.

End BotAppFacts.

(** ** [maskBotToken] *)

Section MaskBotTokenFacts.

Import RegExp.

Variable options : BotAppOptions.

Let tokenUnits : list ascii := list_ascii_of_string (botToken options).
Let placeholderUnits : list ascii := list_ascii_of_string "${{BOT_TOKEN}}".

Lemma placeholder_plain (matched before after : list ascii) :
  GetSubstitution matched before after placeholderUnits = placeholderUnits.
Proof. reflexivity. Qed.

(** The [unmask] action returns its argument: its pattern is the source
    [${{BOT_TOKEN}}], whose first term is the assertion [$]. *)
Lemma unmask_identity (s : string) : maskBotToken options s unmask = Some s.
Proof.
  unfold maskBotToken, replace.
  change (parsePattern (list_ascii_of_string "${{BOT_TOKEN}}"))
    with (Some (TAssertEnd :: map TChar (list_ascii_of_string "{{BOT_TOKEN}}"))).
  unfold replaceAll.
  rewrite replaceFrom_no_match
    by (intros p r; apply matchTerms_end_then_char).
  now rewrite string_of_list_ascii_of_string.
Qed.

Lemma plainToken_inv :
  plainToken (botToken options) = true ->
  exists t0 tk,
    tokenUnits = t0 :: tk /\
    forallb literalChar tokenUnits = true /\
    (forall c, In c (list_ascii_of_string "{{BOT_TOKEN}}") -> c <> t0).
Proof.
  unfold plainToken. fold tokenUnits.
  destruct tokenUnits as [|t0 tk]; [discriminate|].
  intros H. apply andb_true_iff in H. destruct H as [Hlit Hhead].
  exists t0, tk. split; [reflexivity|]. split; [exact Hlit|].
  apply negb_true_iff in Hhead. intros c Hc ->.
  assert (existsb (Ascii.eqb t0) (list_ascii_of_string "{{BOT_TOKEN}}") = true).
  { apply existsb_exists. exists t0. split; [exact Hc | apply Ascii.eqb_refl]. }
  congruence.
Qed.

Lemma plainToken_compiles :
  plainToken (botToken options) = true -> tokenCompiles options = true.
Proof.
  intros H. destruct (plainToken_inv H) as [t0 [tk [_ [Hlit _]]]].
  unfold tokenCompiles. fold tokenUnits.
  now rewrite (parsePattern_literal _ Hlit).
Qed.

(** With a plain token the [mask] action is the replace loop for the
    literal token. *)
Lemma mask_plain (s : string) :
  plainToken (botToken options) = true ->
  maskBotToken options s mask =
  Some (string_of_list_ascii
          (replaceAll (map TChar tokenUnits) placeholderUnits
                      (list_ascii_of_string s))).
Proof.
  intros H. destruct (plainToken_inv H) as [t0 [tk [_ [Hlit _]]]].
  unfold maskBotToken, replace. fold tokenUnits.
  now rewrite (parsePattern_literal _ Hlit).
Qed.

Lemma mask_plain_no_token (s : string) :
  plainToken (botToken options) = true ->
  Js.includes tokenUnits
    (replaceAll (map TChar tokenUnits) placeholderUnits (list_ascii_of_string s))
  = false.
Proof.
  intros H. destruct (plainToken_inv H) as [t0 [tk [E [Hlit Hhead]]]].
  rewrite E in *.
  apply (replaceAll_includes t0 tk (list_ascii_of_string "{{BOT_TOKEN}}")).
  - exact placeholder_plain.
  - exact (literalChar_not_dollar _ Hlit).
  - exact Hhead.
Qed.

Lemma mask_plain_idempotent (s : string) :
  plainToken (botToken options) = true ->
  let once := replaceAll (map TChar tokenUnits) placeholderUnits
                         (list_ascii_of_string s) in
  replaceAll (map TChar tokenUnits) placeholderUnits once = once.
Proof.
  intros H. destruct (plainToken_inv H) as [t0 [tk [E [Hlit Hhead]]]].
  rewrite E in *.
  apply (replaceAll_idempotent t0 tk (list_ascii_of_string "{{BOT_TOKEN}}")).
  - exact placeholder_plain.
  - exact (literalChar_not_dollar _ Hlit).
  - exact Hhead.
Qed.

End MaskBotTokenFacts.

(** Every token of the platform's format is plain. *)
Lemma platformToken_plain (token : string) :
  platformToken token = true -> plainToken token = true.
Proof.
  unfold platformToken, plainToken.
  destruct (list_ascii_of_string token) as [|c w]; [discriminate|].
  intros H. apply andb_true_iff in H. destruct H as [Hc Hw].
  assert (Hdigit : forall x, RegExp.isDigit x = true ->
            literalChar x = true /\
            existsb (Ascii.eqb x) (list_ascii_of_string "{{BOT_TOKEN}}") = false).
  { intros x Hx. unfold RegExp.isDigit in Hx.
    apply andb_true_iff in Hx. destruct Hx as [H1 H2].
    apply Nat.leb_le in H1, H2.
    rewrite <- (ascii_nat_embedding x).
    remember (nat_of_ascii x) as n eqn:En. clear En.
    do 48 (destruct n as [|n]; [lia|]).
    do 10 (destruct n as [|n]; [split; reflexivity|]).
    lia. }
  assert (Hrest : forall x, isSecretChar x || Ascii.eqb x ":"%char = true ->
            literalChar x = true).
  { intros x Hx. rewrite <- (ascii_nat_embedding x) in Hx |- *.
    pose proof (nat_ascii_bounded x) as Hb.
    remember (nat_of_ascii x) as n eqn:En. clear En.
    do 256 (destruct n as [|n]; [revert Hx; vm_compute; congruence|]).
    lia. }
  destruct (Hdigit c Hc) as [Hl Hn].
  apply andb_true_iff. split.
  - simpl. rewrite Hl. simpl. apply forallb_forall. intros x Hx.
    apply Hrest. rewrite forallb_forall in Hw. now apply Hw.
  - now rewrite Hn.
Qed.

(* ================================================================== *)
(** * The claims *)

(** ** Token masking *)

(** C4.  [unmask] does not undo [mask].  The pattern of the [unmask]
    action is the source [${{BOT_TOKEN}}], which starts with an unescaped
    [$], the end-of-input assertion, followed by a pattern character: it
    matches nowhere, and [unmask] returns every string as it is.  On the
    download URL of a file, which holds the token, [mask] puts the
    placeholder in and [unmask] leaves it there. *)
Theorem C4_unmask_leaves_masked_url :
  (forall options s, maskBotToken options s unmask = Some s) /\
  let url := getFileUrl (new_TelegramApiClient (botToken sampleOptions))
                        "photos/file_1.jpg" in
  let masked := "https://api.telegram.org/file/bot${{BOT_TOKEN}}/photos/file_1.jpg" in
  Js.String_includes url (botToken sampleOptions) = true /\
  maskBotToken sampleOptions url mask = Some masked /\
  maskBotToken sampleOptions masked unmask = Some masked /\
  masked <> url.
Proof.
  split; [exact unmask_identity|].
  cbv zeta. split; [reflexivity|]. split; [reflexivity|].
  split; [apply unmask_identity|]. discriminate.
Qed.

(** C5.  For a plain token and every input [s]: [mask s] is defined,
    masking the unmasked mask of [s] gives [mask s] again, and [mask s]
    does not contain the token. *)
Theorem C5_mask_idempotent_and_token_free (options : BotAppOptions) (s : string) :
  plainToken (botToken options) = true ->
  exists m,
    maskBotToken options s mask = Some m /\
    (exists u, maskBotToken options m unmask = Some u /\
               maskBotToken options u mask = Some m) /\
    Js.String_includes m (botToken options) = false.
Proof.
  intros H.
  exists (string_of_list_ascii
            (RegExp.replaceAll
               (map RegExp.TChar (list_ascii_of_string (botToken options)))
               (list_ascii_of_string "${{BOT_TOKEN}}")
               (list_ascii_of_string s))).
  split; [apply (mask_plain options s H)|]. split.
  - eexists. split; [apply unmask_identity|].
    rewrite (mask_plain options _ H).
    rewrite list_ascii_of_string_of_list_ascii.
    now rewrite (mask_plain_idempotent options s H).
  - unfold Js.String_includes.
    rewrite list_ascii_of_string_of_list_ascii.
    apply (mask_plain_no_token options s H).
Qed.

Lemma C5_witness :
  plainToken (botToken sampleOptions) = true /\
  exists m,
    maskBotToken sampleOptions
      "https://api.telegram.org/file/bot123456:ABC-DEF1234ghIkl-zyx57W2v1u123ew11/a.jpg"
      mask = Some m /\
    (exists u, maskBotToken sampleOptions m unmask = Some u /\
               maskBotToken sampleOptions u mask = Some m) /\
    Js.String_includes m (botToken sampleOptions) = false.
Proof.
  split; [reflexivity|].
  apply (C5_mask_idempotent_and_token_free sampleOptions). reflexivity.
Defined.

Example sample_token_has_platform_format :
  platformToken (botToken sampleOptions) = true.
Proof. reflexivity. Qed.

(** Why [plainToken] asks that the token does not start inside the
    placeholder: a token that is a part of the placeholder text, such as
    "BOT_TOKEN", comes back with every placeholder put in. *)
Example mask_token_overlapping_placeholder :
  let options := {| botToken := "BOT_TOKEN"; aiClient := sampleAiClient |} in
  plainToken (botToken options) = false /\
  maskBotToken options "id=BOT_TOKEN" mask = Some "id=${{BOT_TOKEN}}" /\
  Js.String_includes "id=${{BOT_TOKEN}}" (botToken options) = true /\
  maskBotToken options "id=${{BOT_TOKEN}}" mask = Some "id=${{${{BOT_TOKEN}}}}".
Proof. repeat split. Qed.

(** ** Projections of traces *)

Lemma replies_app (a b : list Event) : replies (a ++ b) = replies a ++ replies b.
Proof. apply flat_map_app. Qed.

Lemma inserts_app (a b : list Event) : inserts (a ++ b) = inserts a ++ inserts b.
Proof. apply flat_map_app. Qed.

Lemma chatCalls_app (a b : list Event) :
  chatCalls (a ++ b) = chatCalls a ++ chatCalls b.
Proof. apply flat_map_app. Qed.

Lemma chatWithImageCalls_app (a b : list Event) :
  chatWithImageCalls (a ++ b) = chatWithImageCalls a ++ chatWithImageCalls b.
Proof. apply flat_map_app. Qed.

Lemma storeWrites_app (a b : list Event) :
  storeWrites (a ++ b) = storeWrites a ++ storeWrites b.
Proof. apply filter_app. Qed.

Lemma getFileEvents_silent (ctx : Context) :
  replies (getFileEvents ctx) = [] /\ inserts (getFileEvents ctx) = [] /\
  chatCalls (getFileEvents ctx) = [] /\ storeWrites (getFileEvents ctx) = [].
Proof.
  unfold getFileEvents.
  destruct (option_map msg_photo (message ctx)) as [[ph|]|]; repeat split.
Qed.

Lemma deliveryEvents_replies (outputs : list string) :
  replies (deliveryEvents outputs) = filter (fun m => negb (isEmpty m)) outputs.
Proof.
  induction outputs as [|m rest IH]; [reflexivity|].
  unfold deliveryEvents in *. cbn [flat_map filter].
  rewrite replies_app, IH. destruct (isEmpty m); reflexivity.
Qed.

Lemma deliveryEvents_quiet (outputs : list string) :
  inserts (deliveryEvents outputs) = [] /\ chatCalls (deliveryEvents outputs) = [].
Proof.
  induction outputs as [|m rest [IH1 IH2]]; [split; reflexivity|].
  unfold deliveryEvents in *. cbn [flat_map].
  rewrite inserts_app, chatCalls_app, IH1, IH2.
  destruct (isEmpty m); split; reflexivity.
Qed.

Lemma previousMessageOf_ifTruthy (ctx : Context) :
  ifTruthy (replyToMessage (messagesOf ctx))
           (fun r => [("Previous message: " ++ r)%string]) []
  = previousMessageOf ctx.
Proof.
  unfold previousMessageOf.
  destruct (replyToMessage (messagesOf ctx)) as [[|c s]|]; reflexivity.
Qed.

(** The trace of a text-branch update, in the vocabulary of the claims. *)
Lemma text_branch_events (options : BotAppOptions) (t : Languages) (ctx : Context) :
  textBranch ctx = true ->
  exists incoming,
    incomingOf ctx = Some incoming /\ incoming <> "" /\
    trace (onMessage options t ctx) =
    (getFileEvents ctx ++
     [Insert (row incoming (Js.String_ (from_id ctx))
                  (Js.String_ (from_id ctx)) type_text);
      Chat "friend" [incoming] (previousMessageOf ctx)]) ++
    Insert (row (Js.join "\n" (outputsOf options ctx))
                (Js.String_ (from_id ctx)) "0" type_text)
    :: (deliveryEvents (outputsOf options ctx)
        ++ (if forallb isEmpty (outputsOf options ctx)
            then [Reply (sorryICannotUnderstand t)] else [])).
Proof.
  intros H.
  destruct (text_branch_trace options t ctx H) as [incoming [E [Hne Etr]]].
  exists incoming. split; [exact E|]. split; [exact Hne|].
  cbv zeta in Etr. rewrite Etr. unfold trace, fst.
  rewrite previousMessageOf_ifTruthy.
  unfold outputsOf. rewrite E.
  destruct incoming as [|c s]; [congruence|]. rewrite ifTruthy_String.
  rewrite <- !app_assoc. reflexivity.
Qed.

(** The completion call of a text-branch update, and what it answers. *)
Lemma text_branch_chat_call (options : BotAppOptions) (t : Languages) (ctx : Context) :
  textBranch ctx = true ->
  exists incoming,
    incomingOf ctx = Some incoming /\ incoming <> "" /\
    chatCalls (trace (onMessage options t ctx)) =
    [("friend", [incoming], previousMessageOf ctx)] /\
    outputsOf options ctx =
    chat (aiClient options) "friend" [incoming] (previousMessageOf ctx).
Proof.
  intros H.
  destruct (text_branch_events options t ctx H) as [incoming [E [Hne Etr]]].
  exists incoming. split; [exact E|]. split; [exact Hne|]. split.
  - rewrite Etr.
    change (?a ++ Insert ?r :: ?b) with (a ++ [Insert r] ++ b).
    rewrite !chatCalls_app.
    destruct (getFileEvents_silent ctx) as [_ [_ [-> _]]].
    destruct (deliveryEvents_quiet (outputsOf options ctx)) as [_ ->].
    destruct (forallb isEmpty (outputsOf options ctx)); reflexivity.
  - unfold outputsOf. rewrite E.
    destruct incoming as [|c s]; [congruence|]. now rewrite ifTruthy_String.
Qed.

(** ** The text branch *)

(** C1 (as amended).  For every text-branch update the completion client
    is called once, with persona "friend", the incoming message as the
    only input, and a context list that is empty when the update is not a
    reply or the message replied to has no text, and otherwise holds one
    element: the text replied to, after the label "Previous message: ". *)
Theorem C1_context_list (options : BotAppOptions) (t : Languages) (ctx : Context) :
  textBranch ctx = true ->
  exists incoming,
    incomingOf ctx = Some incoming /\
    chatCalls (trace (onMessage options t ctx)) =
    [("friend", [incoming],
      match replyToMessage (messagesOf ctx) with
      | None => []
      | Some EmptyString => []
      | Some r => [("Previous message: " ++ r)%string]
      end)].
Proof.
  intros H.
  destruct (text_branch_chat_call options t ctx H) as [incoming [E [_ [Ecall _]]]].
  exists incoming. split; [exact E|].
  rewrite Ecall. reflexivity.
Qed.

Lemma C1_witness :
  textBranch textReplyUpdate = true /\
  exists incoming,
    incomingOf textReplyUpdate = Some incoming /\
    chatCalls (trace (onMessage sampleOptions sampleLanguages textReplyUpdate)) =
    [("friend", [incoming], ["Previous message: ping"])].
Proof.
  split; [reflexivity|].
  exact (C1_context_list sampleOptions sampleLanguages textReplyUpdate eq_refl).
Defined.

(** C1, as stated, fails: for a reply to the message "ping" the context
    list handed to the completion client is not the list holding "ping". *)
Lemma C1_counterexample :
  textBranch textReplyUpdate = true /\
  replyToMessage (messagesOf textReplyUpdate) = Some "ping" /\
  map snd (chatCalls (trace (onMessage sampleOptions sampleLanguages textReplyUpdate)))
  <> [["ping"]].
Proof.
  split; [reflexivity|]. split; [reflexivity|]. vm_compute. discriminate.
Qed.

(** C2 (as amended).  For every text-branch update, let [outputs] be what
    the completion call answers.  The row recording the response has, as
    payload, the outputs joined with the separator of the source, which
    is the two code units backslash and n (so "hi" and "there" give the
    nine code units h i \ n t h e r e); the row is attributed to sender
    "0"; no reply is sent before it is written, and every delivery comes
    after it. *)
Theorem C2_joined_response_row (options : BotAppOptions) (t : Languages)
        (ctx : Context) :
  textBranch ctx = true ->
  exists incoming context pre post,
    chatCalls (trace (onMessage options t ctx)) = [("friend", [incoming], context)] /\
    let outputs := chat (aiClient options) "friend" [incoming] context in
    trace (onMessage options t ctx) =
    pre ++ Insert (init {| payload := Js.join "\n" outputs;
                           userId := Js.String_ (from_id ctx);
                           senderId := "0";
                           type := type_text |} None) :: post /\
    replies pre = [] /\
    replies post = deliveryReplies t outputs /\
    inserts post = [] /\
    list_ascii_of_string "\n" = [ascii_of_nat 92; ascii_of_nat 110] /\
    Js.join "\n" ["hi"; "there"] =
    String "h" (String "i" (String (ascii_of_nat 92) (String "n" "there"))).
Proof.
  intros H.
  destruct (text_branch_events options t ctx H) as [incoming [E [_ Etr]]].
  destruct (text_branch_chat_call options t ctx H) as [incoming' [E' [_ [Ecall Eout]]]].
  assert (incoming' = incoming) by congruence. subst incoming'.
  exists incoming, (previousMessageOf ctx). eexists. eexists.
  split; [exact Ecall|]. cbv zeta. rewrite <- Eout.
  split; [exact Etr|].
  destruct (getFileEvents_silent ctx) as [Hr [_ _]].
  destruct (deliveryEvents_quiet (outputsOf options ctx)) as [Hi _].
  repeat split.
  - rewrite replies_app, Hr. reflexivity.
  - rewrite replies_app, deliveryEvents_replies. unfold deliveryReplies.
    destruct (forallb isEmpty (outputsOf options ctx)); reflexivity.
  - rewrite inserts_app, Hi.
    destruct (forallb isEmpty (outputsOf options ctx)); reflexivity.
Qed.

Lemma C2_witness :
  textBranch textReplyUpdate = true /\
  exists pre post,
    trace (onMessage sampleOptions sampleLanguages textReplyUpdate) =
    pre ++ Insert (row (String "h" (String "i" (String (ascii_of_nat 92)
                                                       (String "n" "there"))))
                       "42" "0" type_text) :: post /\
    replies pre = [] /\
    replies post = ["hi"; "there"].
Proof.
  split; [reflexivity|].
  destruct (C2_joined_response_row sampleOptions sampleLanguages textReplyUpdate eq_refl)
    as [incoming [context [pre [post [_ [E [Hpre [Hpost _]]]]]]]].
  exists pre, post. split; [exact E|]. split; [exact Hpre | exact Hpost].
Defined.

(** C2, as stated, fails: when the completion client answers "hi" and
    "there", no row written to the store has "hi", a line feed and
    "there" as its payload. *)
Lemma C2_counterexample :
  textBranch textReplyUpdate = true /\
  chat (aiClient sampleOptions) "friend" ["hello"] ["Previous message: ping"]
  = ["hi"; "there"] /\
  ~ In ("hi" ++ lineFeed ++ "there")%string
       (map (fun r => payload (entity r))
            (inserts (trace (onMessage sampleOptions sampleLanguages textReplyUpdate)))).
Proof.
  split; [reflexivity|]. split; [reflexivity|].
  vm_compute. intros [H|[H|[]]]; discriminate H.
Qed.

(** C6.  For every text-branch update, let [outputs] be what the
    completion call answers.  What is awaited after the response row is
    written is the delivery loop: in list order, a delay of 100 ms and
    then the reply for each output that is not empty, nothing for an empty
    one; after the loop the "cannot understand" notice is sent exactly
    when every output was empty.  Nothing is replied before the loop.  So
    "hello", "", "world" give the replies "hello" and "world", and "", ""
    give the notice alone. *)
Theorem C6_delivery_loop (options : BotAppOptions) (t : Languages) (ctx : Context) :
  textBranch ctx = true ->
  exists incoming context pre,
    chatCalls (trace (onMessage options t ctx)) = [("friend", [incoming], context)] /\
    let outputs := chat (aiClient options) "friend" [incoming] context in
    trace (onMessage options t ctx) =
    pre ++ deliveryEvents outputs
        ++ (if forallb isEmpty outputs
            then [Reply (sorryICannotUnderstand t)] else []) /\
    replies pre = [] /\
    replies (trace (onMessage options t ctx)) = deliveryReplies t outputs /\
    deliveryEvents ["hello"; ""; "world"] =
    [Delay 100; Reply "hello"; Delay 100; Reply "world"] /\
    deliveryReplies t ["hello"; ""; "world"] = ["hello"; "world"] /\
    deliveryEvents [""; ""] = [] /\
    deliveryReplies t [""; ""] = [sorryICannotUnderstand t].
Proof.
  intros H.
  destruct (text_branch_events options t ctx H) as [incoming [E [_ Etr]]].
  destruct (text_branch_chat_call options t ctx H) as [incoming' [E' [_ [Ecall Eout]]]].
  assert (incoming' = incoming) by congruence. subst incoming'.
  exists incoming, (previousMessageOf ctx). eexists.
  split; [exact Ecall|]. cbv zeta. rewrite <- Eout. split.
  - rewrite Etr.
    change (?a ++ Insert ?r :: ?b) with (a ++ [Insert r] ++ b).
    rewrite app_assoc. reflexivity.
  - destruct (getFileEvents_silent ctx) as [Hr [_ _]].
    repeat split.
    + rewrite !replies_app, Hr. reflexivity.
    + rewrite Etr.
      change (?a ++ Insert ?r :: ?b) with (a ++ [Insert r] ++ b).
      rewrite !replies_app, Hr, deliveryEvents_replies. unfold deliveryReplies.
      destruct (forallb isEmpty (outputsOf options ctx)); reflexivity.
Qed.

Lemma C6_witness :
  textBranch textReplyUpdate = true /\
  chat (aiClient (optionsWithOutputs ["hello"; ""; "world"]))
       "friend" ["hello"] ["Previous message: ping"]
  = ["hello"; ""; "world"] /\
  replies (trace (onMessage (optionsWithOutputs ["hello"; ""; "world"])
                            sampleLanguages textReplyUpdate))
  = ["hello"; "world"].
Proof.
  split; [reflexivity|]. split; [reflexivity|].
  destruct (C6_delivery_loop (optionsWithOutputs ["hello"; ""; "world"])
                             sampleLanguages textReplyUpdate eq_refl)
    as [incoming [context [pre [_ [_ [_ [E _]]]]]]].
  exact E.
Defined.

Example delivery_hello_world :
  trace (onMessage (optionsWithOutputs ["hello"; ""; "world"])
                   sampleLanguages textReplyUpdate)
  = [Insert (row "hello" "42" "42" type_text);
     Chat "friend" ["hello"] ["Previous message: ping"];
     Insert (row "hello\n\nworld" "42" "0" type_text);
     Delay 100; Reply "hello"; Delay 100; Reply "world"].
Proof. reflexivity. Qed.

Example delivery_all_empty :
  trace (onMessage (optionsWithOutputs [""; ""]) sampleLanguages textReplyUpdate)
  = [Insert (row "hello" "42" "42" type_text);
     Chat "friend" ["hello"] ["Previous message: ping"];
     Insert (row "\n" "42" "0" type_text);
     Reply "Sorry, I cannot understand"].
Proof. reflexivity. Qed.

(** A text message without a sender: the notice, and no write. *)
Example text_without_sender :
  onMessage sampleOptions sampleLanguages
            {| from_id := None;
               message := Some {| msg_text := Some "hello"; msg_caption := None;
                                  msg_photo := None; reply_to_message := None |};
               getFile_result := {| file_path := None |} |}
  = ([Reply "Sorry, I cannot understand"], Returned tt).
Proof. reflexivity. Qed.

Example delivery_no_output :
  replies (trace (onMessage (optionsWithOutputs []) sampleLanguages textReplyUpdate))
  = ["Sorry, I cannot understand"].
Proof. reflexivity. Qed.

(** ** Unclassifiable updates *)

(** C8.  For every update from which neither text, caption nor photo is
    extracted, the handler sends one reply, the "cannot understand message
    type" notice, writes nothing to the store, calls no completion, and
    returns. *)
Theorem C8_unclassifiable_update (options : BotAppOptions) (t : Languages)
        (ctx : Context) :
  text (messagesOf ctx) = None ->
  caption (messagesOf ctx) = None ->
  photo (messagesOf ctx) = None ->
  replies (trace (onMessage options t ctx)) = [sorryICannotUnderstandMessageType t] /\
  storeWrites (trace (onMessage options t ctx)) = [] /\
  chatCalls (trace (onMessage options t ctx)) = [] /\
  chatWithImageCalls (trace (onMessage options t ctx)) = [] /\
  completion (onMessage options t ctx) = Returned tt.
Proof.
  unfold messagesOf, onMessage, allMessagesHandler.
  destruct ctx as [fid [m|] gf]; cbn.
  - destruct m as [tx cap ph rp]; cbn. intros -> -> Hph.
    destruct ph as [ph|]; cbn in *.
    + rewrite Hph, emit_then_ret, bind_Returned. cbn. repeat split.
    + rewrite bind_ret. cbn. repeat split.
  - intros _ _ _. rewrite bind_ret. cbn. repeat split.
Qed.

Lemma C8_witness :
  text (messagesOf stickerUpdate) = None /\
  caption (messagesOf stickerUpdate) = None /\
  photo (messagesOf stickerUpdate) = None /\
  replies (trace (onMessage sampleOptions sampleLanguages stickerUpdate))
  = ["Sorry, I cannot understand this message type"] /\
  storeWrites (trace (onMessage sampleOptions sampleLanguages stickerUpdate)) = [].
Proof.
  split; [reflexivity|]. split; [reflexivity|]. split; [reflexivity|].
  destruct (C8_unclassifiable_update sampleOptions sampleLanguages stickerUpdate
              eq_refl eq_refl eq_refl) as [Hr [Hs _]].
  split; [exact Hr | exact Hs].
Defined.

(** ** The batched save *)

Lemma messageRowsFrom_spec (ctx : Context) (sender : Z) (messages : list string) :
  forall k,
    map order (messageRowsFrom ctx messages sender k)
    = map Some (seq k (List.length messages)) /\
    map (fun r => payload (entity r)) (messageRowsFrom ctx messages sender k)
    = messages /\
    Forall (fun r => userId (entity r) = Js.String_ (from_id ctx) /\
                     senderId (entity r) = Js.String_of_number sender /\
                     type (entity r) = type_text)
           (messageRowsFrom ctx messages sender k).
Proof.
  induction messages as [|m rest IH]; intros k.
  - repeat split. constructor.
  - destruct (IH (S k)) as [H1 [H2 H3]]. cbn [messageRowsFrom List.length seq map].
    rewrite H1, H2. repeat split. constructor; [repeat split | exact H3].
Qed.

(** C9.  For every list of messages and sender id, the batched save makes
    one call, a batch insert, of one row per message, in list order: the
    row at position i carries the i-th message and the explicit order i,
    and all rows carry the invoking user's id, the given sender id and
    the type text.  For "a", "b", "c" and sender 42 the three rows have
    the orders 0, 1 and 2. *)
Theorem C9_batched_save (ctx : Context) (messages : list string) (sender : Z) :
  exists rows,
    saveTextMessages ctx messages sender = ([InsertBatch rows], Returned tt) /\
    List.length rows = List.length messages /\
    map order rows = map Some (seq 0 (List.length messages)) /\
    map (fun r => payload (entity r)) rows = messages /\
    Forall (fun r => userId (entity r) = Js.String_ (from_id ctx) /\
                     senderId (entity r) = Js.String_of_number sender /\
                     type (entity r) = type_text) rows /\
    saveTextMessages ctx ["a"; "b"; "c"] 42 =
    ([InsertBatch
        [init {| payload := "a"; userId := Js.String_ (from_id ctx);
                 senderId := "42"; type := type_text |} (Some 0);
         init {| payload := "b"; userId := Js.String_ (from_id ctx);
                 senderId := "42"; type := type_text |} (Some 1);
         init {| payload := "c"; userId := Js.String_ (from_id ctx);
                 senderId := "42"; type := type_text |} (Some 2)]],
     Returned tt).
Proof.
  exists (messageRowsFrom ctx messages sender 0).
  destruct (messageRowsFrom_spec ctx sender messages 0) as [H1 [H2 H3]].
  split; [unfold saveTextMessages; now rewrite map_id|].
  split.
  { rewrite <- (length_map order), H1, length_map. apply length_seq. }
  split; [exact H1|]. split; [exact H2|]. split; [exact H3|].
  reflexivity.
Qed.

(** ** The photo branch *)

(** The trace of a photo-branch update, in the vocabulary of the claims. *)
Lemma photo_branch_events (options : BotAppOptions) (t : Languages) (ctx : Context) :
  photoBranch ctx = true ->
  tokenCompiles options = true ->
  exists masked,
    maskBotToken options (photoUrlOf options ctx) mask = Some masked /\
    let uid := Js.String_ (from_id ctx) in
    let incomingMessages := ifTruthy (incomingOf ctx) (fun c => [c]) [] in
    trace (onMessage options t ctx) =
    [GetFile; Reply (readingImage t ++ "...")]
      ++ ifTruthy (incomingOf ctx) (fun c => [Insert (row c uid uid type_text)]) []
      ++ [Insert (row masked uid uid type_photo);
          ChatWithImage "friend" incomingMessages (photoUrlOf options ctx)]
      ++ ifTruthy (chatWithImage (aiClient options) "friend" incomingMessages
                                 (photoUrlOf options ctx))
           (fun m => [Reply m; Insert (row m uid uid type_text)])
           [Reply (sorryICannotUnderstand t)].
Proof.
  intros Hphoto Htoken.
  destruct (mask_defined options (photoUrlOf options ctx) Htoken) as [masked Hmask].
  exists masked. split; [exact Hmask|]. intros uid incomingMessages.
  now rewrite (photo_branch_trace options t ctx masked Hphoto Hmask).
Qed.

(** What the photo branch writes after the rows of the inbound unit: the
    row of the generated text, if there is one. *)
Lemma photo_tail_writes (t : Languages) (uid : string) (message : option string) :
  let tail := ifTruthy message
                (fun m => [Reply m; Insert (row m uid uid type_text)])
                [Reply (sorryICannotUnderstand t)] in
  (storeWrites tail = [] \/
   exists m, storeWrites tail = [Insert (row m uid uid type_text)]) /\
  chatWithImageCalls tail = [].
Proof.
  destruct message as [[|c s]|]; cbv zeta; split; try reflexivity;
    try (left; reflexivity).
  right. eexists. reflexivity.
Qed.

(** C3.  In the photo branch, the row that records the generated text
    carries the sender's id in [senderId], as the rows of the inbound
    unit do: for every photo-branch update whose completion yields the
    usable text [m], the last row written is [m] with both [userId] and
    [senderId] equal to [String(ctx.from?.id)]. *)
Theorem C3_photo_response_row_sender (options : BotAppOptions) (t : Languages)
        (ctx : Context) (m : string) :
  photoBranch ctx = true ->
  tokenCompiles options = true ->
  chatWithImage (aiClient options) "friend"
                (ifTruthy (incomingOf ctx) (fun c => [c]) [])
                (photoUrlOf options ctx) = Some m ->
  m <> "" ->
  exists before,
    inserts (trace (onMessage options t ctx)) =
    before ++ [init {| payload := m;
                       userId := Js.String_ (from_id ctx);
                       senderId := Js.String_ (from_id ctx);
                       type := type_text |} None].
Proof.
  intros Hphoto Htoken Hm Hne.
  destruct (photo_branch_events options t ctx Hphoto Htoken) as [masked [_ Etr]].
  cbv zeta in Etr. rewrite Etr, Hm.
  destruct m as [|c s]; [congruence|]. rewrite ifTruthy_String.
  rewrite !inserts_app. eexists.
  rewrite !app_assoc. reflexivity.
Qed.

Lemma C3_witness :
  photoBranch captionedPhotoUpdate = true /\
  tokenCompiles sampleOptions = true /\
  exists before,
    inserts (trace (onMessage sampleOptions sampleLanguages captionedPhotoUpdate)) =
    before ++ [init {| payload := "a cat";
                       userId := "42";
                       senderId := "42";
                       type := type_text |} None].
Proof.
  split; [reflexivity|]. split; [reflexivity|].
  apply (C3_photo_response_row_sender sampleOptions sampleLanguages
           captionedPhotoUpdate "a cat"); [reflexivity | reflexivity | reflexivity |].
  discriminate.
Defined.

Example photo_with_caption_trace :
  trace (onMessage sampleOptions sampleLanguages captionedPhotoUpdate)
  = [GetFile;
     Reply "Reading image...";
     Insert (row "look" "42" "42" type_text);
     Insert (row "https://api.telegram.org/file/bot${{BOT_TOKEN}}/photos/file_1.jpg"
                 "42" "42" type_photo);
     ChatWithImage "friend" ["look"]
       "https://api.telegram.org/file/bot123456:ABC-DEF1234ghIkl-zyx57W2v1u123ew11/photos/file_1.jpg";
     Reply "a cat";
     Insert (row "a cat" "42" "42" type_text)].
Proof. reflexivity. Qed.

(** C7.  For every photo-branch update with a non-empty caption, the
    first two store writes are those of the inbound unit: first a text
    row attributed to the sender, whose payload is the caption (or the
    text body, should the update have one), then the photo row with the
    masked URL.  At most one write follows, the row of the generated
    text. *)
Theorem C7_caption_row_before_photo_row (options : BotAppOptions) (t : Languages)
        (ctx : Context) (c : string) :
  photoBranch ctx = true ->
  tokenCompiles options = true ->
  caption (messagesOf ctx) = Some c ->
  c <> "" ->
  let uid := Js.String_ (from_id ctx) in
  exists p masked rest,
    incomingOf ctx = Some p /\ p <> "" /\
    (p = c \/ text (messagesOf ctx) = Some p) /\
    maskBotToken options (photoUrlOf options ctx) mask = Some masked /\
    storeWrites (trace (onMessage options t ctx)) =
    Insert (init {| payload := p; userId := uid; senderId := uid;
                    type := type_text |} None)
    :: Insert (init {| payload := masked; userId := uid; senderId := uid;
                       type := type_photo |} None)
    :: rest /\
    (rest = [] \/ exists m, rest = [Insert (row m uid uid type_text)]).
Proof.
  intros Hphoto Htoken Hcap Hne uid.
  destruct (photo_branch_events options t ctx Hphoto Htoken) as [masked [Hmask Etr]].
  cbv zeta in Etr. fold uid in Etr.
  assert (Hinc : exists p, incomingOf ctx = Some p /\ p <> "" /\
                           (p = c \/ text (messagesOf ctx) = Some p)).
  { unfold incomingOf, Js.or. rewrite Hcap.
    destruct (text (messagesOf ctx)) as [[|a s]|]; cbn.
    - exists c. auto.
    - exists (String a s). repeat split; [discriminate | now right].
    - exists c. auto. }
  destruct Hinc as [p [Ep [Hp Hor]]].
  set (tail := ifTruthy _ (fun m => [Reply m; Insert (row m uid uid type_text)]) _) in Etr.
  exists p, masked, (storeWrites tail).
  split; [exact Ep|]. split; [exact Hp|]. split; [exact Hor|]. split; [exact Hmask|].
  split.
  - rewrite Etr, Ep. destruct p as [|a s]; [congruence|].
    rewrite !ifTruthy_String. rewrite !storeWrites_app. reflexivity.
  - apply (photo_tail_writes t uid).
Qed.

Lemma C7_witness :
  photoBranch captionedPhotoUpdate = true /\
  tokenCompiles sampleOptions = true /\
  caption (messagesOf captionedPhotoUpdate) = Some "look" /\
  exists p masked rest,
    incomingOf captionedPhotoUpdate = Some p /\ p <> "" /\
    (p = "look" \/ text (messagesOf captionedPhotoUpdate) = Some p) /\
    maskBotToken sampleOptions (photoUrlOf sampleOptions captionedPhotoUpdate) mask
    = Some masked /\
    storeWrites (trace (onMessage sampleOptions sampleLanguages captionedPhotoUpdate)) =
    Insert (init {| payload := p; userId := "42"; senderId := "42";
                    type := type_text |} None)
    :: Insert (init {| payload := masked; userId := "42"; senderId := "42";
                       type := type_photo |} None)
    :: rest /\
    (rest = [] \/ exists m, rest = [Insert (row m "42" "42" type_text)]).
Proof.
  split; [reflexivity|]. split; [reflexivity|]. split; [reflexivity|].
  apply (C7_caption_row_before_photo_row sampleOptions sampleLanguages
           captionedPhotoUpdate "look"); [reflexivity | reflexivity | reflexivity |].
  discriminate.
Defined.

(** C10.  In the photo branch the caption value is [text || caption]: the
    text body when it is present and not empty, the attached caption
    otherwise.  When that value is a non-empty string it is the single
    input of the image completion call and the payload of a text row
    written before the photo row; otherwise the input list is empty and
    the photo row is the first write.  So a photo whose caption is the
    empty string, with no text, gives an empty input list and no caption
    row. *)
Theorem C10_photo_caption_value (options : BotAppOptions) (t : Languages)
        (ctx : Context) :
  photoBranch ctx = true ->
  tokenCompiles options = true ->
  let uid := Js.String_ (from_id ctx) in
  let captionValue :=
    if Js.truthy (text (messagesOf ctx))
    then text (messagesOf ctx) else caption (messagesOf ctx) in
  exists masked rest,
    maskBotToken options (photoUrlOf options ctx) mask = Some masked /\
    chatWithImageCalls (trace (onMessage options t ctx)) =
    [("friend", ifTruthy captionValue (fun c => [c]) [], photoUrlOf options ctx)] /\
    storeWrites (trace (onMessage options t ctx)) =
    ifTruthy captionValue (fun c => [Insert (row c uid uid type_text)]) []
    ++ Insert (row masked uid uid type_photo) :: rest /\
    (rest = [] \/ exists m, rest = [Insert (row m uid uid type_text)]) /\
    (text (messagesOf ctx) = None ->
     caption (messagesOf ctx) = Some "" ->
     chatWithImageCalls (trace (onMessage options t ctx)) =
     [("friend", [], photoUrlOf options ctx)] /\
     storeWrites (trace (onMessage options t ctx)) =
     Insert (row masked uid uid type_photo) :: rest).
Proof.
  intros Hphoto Htoken uid captionValue.
  destruct (photo_branch_events options t ctx Hphoto Htoken) as [masked [Hmask Etr]].
  cbv zeta in Etr. fold uid in Etr.
  change (incomingOf ctx) with captionValue in Etr.
  set (tail := ifTruthy _ (fun m => [Reply m; Insert (row m uid uid type_text)]) _) in Etr.
  destruct (photo_tail_writes t uid
              (chatWithImage (aiClient options) "friend"
                 (ifTruthy captionValue (fun c => [c]) [])
                 (photoUrlOf options ctx))) as [Hrest Hcalls].
  fold tail in Hrest, Hcalls.
  assert (Ecalls : chatWithImageCalls (trace (onMessage options t ctx)) =
                   [("friend", ifTruthy captionValue (fun c => [c]) [],
                     photoUrlOf options ctx)]).
  { rewrite Etr, !chatWithImageCalls_app, Hcalls.
    destruct captionValue as [[|a s]|]; reflexivity. }
  assert (Ewrites : storeWrites (trace (onMessage options t ctx)) =
                    ifTruthy captionValue
                      (fun c => [Insert (row c uid uid type_text)]) []
                    ++ Insert (row masked uid uid type_photo) :: storeWrites tail).
  { rewrite Etr, !storeWrites_app.
    destruct captionValue as [[|a s]|]; reflexivity. }
  exists masked, (storeWrites tail).
  split; [exact Hmask|]. split; [exact Ecalls|]. split; [exact Ewrites|].
  split; [exact Hrest|].
  intros Htext Hcap. rewrite Ecalls, Ewrites.
  unfold captionValue. rewrite Htext, Hcap. split; reflexivity.
Qed.

Lemma C10_witness :
  photoBranch emptyCaptionPhotoUpdate = true /\
  tokenCompiles sampleOptions = true /\
  text (messagesOf emptyCaptionPhotoUpdate) = None /\
  caption (messagesOf emptyCaptionPhotoUpdate) = Some "" /\
  exists masked rest,
    chatWithImageCalls
      (trace (onMessage sampleOptions sampleLanguages emptyCaptionPhotoUpdate)) =
    [("friend", [], photoUrlOf sampleOptions emptyCaptionPhotoUpdate)] /\
    storeWrites (trace (onMessage sampleOptions sampleLanguages emptyCaptionPhotoUpdate)) =
    Insert (row masked "42" "42" type_photo) :: rest.
Proof.
  split; [reflexivity|]. split; [reflexivity|].
  split; [reflexivity|]. split; [reflexivity|].
  destruct (C10_photo_caption_value sampleOptions sampleLanguages
              emptyCaptionPhotoUpdate eq_refl eq_refl)
    as [masked [rest [_ [_ [_ [_ H]]]]]].
  exists masked, rest. exact (H eq_refl eq_refl).
Defined.

(** A token that is not a regular expression: [handlePhoto] is left by
    the SyntaxError of [new RegExp] after the caption row, before the
    photo row. *)
Example photo_with_unparsable_token :
  onMessage {| botToken := "123456:(secret"; aiClient := sampleAiClient |}
            sampleLanguages captionedPhotoUpdate
  = ([GetFile; Reply "Reading image..."; Insert (row "look" "42" "42" type_text)],
     Thrown).
Proof. reflexivity. Qed.

Example photo_with_empty_caption_trace :
  trace (onMessage sampleOptions sampleLanguages emptyCaptionPhotoUpdate)
  = [GetFile;
     Reply "Reading image...";
     Insert (row "https://api.telegram.org/file/bot${{BOT_TOKEN}}/photos/file_1.jpg"
                 "42" "42" type_photo);
     ChatWithImage "friend" []
       "https://api.telegram.org/file/bot123456:ABC-DEF1234ghIkl-zyx57W2v1u123ew11/photos/file_1.jpg";
     Reply "a cat";
     Insert (row "a cat" "42" "42" type_text)].
Proof. reflexivity. Qed.

(* ================================================================== *)
(** * Further properties of the code *)

Example split_examples :
  JsText.split ","%char (list_ascii_of_string "12,34")
  = [list_ascii_of_string "12"; list_ascii_of_string "34"] /\
  JsText.split ","%char (list_ascii_of_string "12,") = [list_ascii_of_string "12"; []] /\
  JsText.split ","%char [] = [[]].
Proof. repeat split. Qed.

Example preprocess_examples :
  ALLOWED_USER_IDS_preprocess (VString "1234567890,0987654321")
  = [JsText.Int 1234567890; JsText.Int 987654321] /\
  ALLOWED_USER_IDS_preprocess (VString " 12 , 34 ") = [JsText.Int 12; JsText.Int 34] /\
  ALLOWED_USER_IDS_preprocess (VString "12,x") = [JsText.Int 12; JsText.NotModelled].
Proof. repeat split. Qed.

Example replaceString_examples :
  JsText.replaceString "a-b-c" "-" "+" = "a+b-c" /\
  JsText.replaceString "abc" "" "<$&>" = "<>abc" /\
  JsText.replaceString "abc" "x" "y" = "abc".
Proof. repeat split. Qed.

(** ** The four ways an update is handled *)

Lemma unclassifiable_trace (options : BotAppOptions) (t : Languages) (ctx : Context) :
  unclassifiable ctx = true ->
  onMessage options t ctx =
  (getFileEvents ctx ++ [Reply (sorryICannotUnderstandMessageType t)], Returned tt).
Proof.
  unfold unclassifiable, messagesOf, onMessage, allMessagesHandler, getFileEvents.
  destruct ctx as [fid [m|] gf]; cbn.
  - destruct m as [tx cap ph rp]; cbn. intros H.
    destruct ph as [ph|]; cbn in *.
    + rewrite emit_then_ret, bind_Returned. cbn. rewrite H. reflexivity.
    + rewrite bind_ret. cbn. rewrite H. reflexivity.
  - intros _. rewrite bind_ret. reflexivity.
Qed.

Lemma notice_branch_trace (options : BotAppOptions) (t : Languages) (ctx : Context) :
  unclassifiable ctx = false ->
  photoBranch ctx = false ->
  textBranch ctx = false ->
  onMessage options t ctx =
  (getFileEvents ctx ++ [Reply (sorryICannotUnderstand t)], Returned tt).
Proof.
  unfold textBranch. intros Hcls Hphoto Htext. rewrite Hphoto in Htext.
  cbn in Htext.
  assert (Hguard : negb (Js.truthy (incomingOf ctx)) || isUndefined (from_id ctx) = true).
  { destruct (Js.truthy (incomingOf ctx)); [|reflexivity].
    destruct (isUndefined (from_id ctx)); [reflexivity | discriminate Htext]. }
  clear Htext. revert Hcls Hphoto Hguard.
  unfold unclassifiable, photoBranch, incomingOf, messagesOf, onMessage,
    allMessagesHandler, getFileEvents.
  destruct ctx as [fid [m|] gf]; cbn.
  - destruct m as [tx cap ph rp]; cbn. intros Hcls Hphoto Hguard.
    destruct ph as [ph|]; cbn in *.
    + rewrite emit_then_ret, bind_Returned. cbn. rewrite Hcls.
      rewrite (ifTruthy_falsy _ _ _ Hphoto), Hguard. reflexivity.
    + rewrite bind_ret. cbn. rewrite Hcls.
      rewrite (ifTruthy_falsy None _ _ eq_refl), Hguard. reflexivity.
  - discriminate.
Qed.

(** A photo-branch update with a token that [new RegExp] refuses. *)
Lemma photo_branch_thrown (options : BotAppOptions) (t : Languages) (ctx : Context) :
  photoBranch ctx = true ->
  maskBotToken options (photoUrlOf options ctx) mask = None ->
  let uid := Js.String_ (from_id ctx) in
  onMessage options t ctx =
  ([GetFile; Reply (readingImage t ++ "...")]
     ++ ifTruthy (incomingOf ctx) (fun c => [Insert (row c uid uid type_text)]) [],
   Thrown).
Proof.
  intros Hphoto Hmask uid. unfold photoBranch in Hphoto.
  assert (E : onMessage options t ctx =
              bind ([GetFile], Returned tt)
                   (fun _ => handlePhoto options t ctx (Some (aiClient options))
                                         (photoUrlOf options ctx) (incomingOf ctx))).
  { unfold onMessage, allMessagesHandler, photoUrlOf, incomingOf.
    unfold messagesOf in *.
    destruct ctx as [fid [m|] gf]; cbn in *; [|discriminate Hphoto].
    destruct m as [tx cap ph rp]; cbn in *.
    destruct ph as [ph|]; cbn in *; [|discriminate Hphoto].
    rewrite emit_then_ret, !bind_Returned.
    destruct (file_path gf) as [[|c s]|]; try discriminate Hphoto.
    cbn. rewrite !andb_false_r. rewrite !ifTruthy_String. reflexivity. }
  rewrite E, bind_Returned. unfold handlePhoto. rewrite Hmask.
  unfold reply, insert, orThrow. rewrite bind_emit. fold uid.
  assert (Hcap :
    ifTruthy (incomingOf ctx)
      (fun c => emit (Insert (init {| payload := c; userId := uid;
                                      senderId := uid; type := type_text |} None)))
      (ret tt)
    = (ifTruthy (incomingOf ctx) (fun c => [Insert (row c uid uid type_text)]) [],
       Returned tt)).
  { destruct (incomingOf ctx) as [[|c s]|]; reflexivity. }
  rewrite Hcap, bind_Returned, bind_throw. cbn. rewrite app_nil_r. reflexivity.
Qed.

(** The normal form of [onMessage]: one of five traces, by the kind of
    the update and, for a photo, by whether the token compiles. *)
Lemma onMessage_cases (options : BotAppOptions) (t : Languages) (ctx : Context) :
  let uid := Js.String_ (from_id ctx) in
  (unclassifiable ctx = true /\
   onMessage options t ctx =
   (getFileEvents ctx ++ [Reply (sorryICannotUnderstandMessageType t)], Returned tt))
  \/
  (photoBranch ctx = true /\ exists masked,
     maskBotToken options (photoUrlOf options ctx) mask = Some masked /\
     let incomingMessages := ifTruthy (incomingOf ctx) (fun c => [c]) [] in
     onMessage options t ctx =
     ([GetFile; Reply (readingImage t ++ "...")]
        ++ ifTruthy (incomingOf ctx) (fun c => [Insert (row c uid uid type_text)]) []
        ++ [Insert (row masked uid uid type_photo);
            ChatWithImage "friend" incomingMessages (photoUrlOf options ctx)]
        ++ ifTruthy (chatWithImage (aiClient options) "friend" incomingMessages
                                   (photoUrlOf options ctx))
             (fun m => [Reply m; Insert (row m uid uid type_text)])
             [Reply (sorryICannotUnderstand t)],
      Returned tt))
  \/
  (photoBranch ctx = true /\ tokenCompiles options = false /\
   onMessage options t ctx =
   ([GetFile; Reply (readingImage t ++ "...")]
      ++ ifTruthy (incomingOf ctx) (fun c => [Insert (row c uid uid type_text)]) [],
    Thrown))
  \/
  (textBranch ctx = true /\ exists incoming,
     incomingOf ctx = Some incoming /\ incoming <> "" /\
     onMessage options t ctx =
     ((getFileEvents ctx ++
       [Insert (row incoming uid uid type_text);
        Chat "friend" [incoming] (previousMessageOf ctx)]) ++
      Insert (row (Js.join "\n" (outputsOf options ctx)) uid "0" type_text)
      :: (deliveryEvents (outputsOf options ctx)
          ++ (if forallb isEmpty (outputsOf options ctx)
              then [Reply (sorryICannotUnderstand t)] else [])),
      Returned tt))
  \/
  (unclassifiable ctx = false /\ photoBranch ctx = false /\ textBranch ctx = false /\
   onMessage options t ctx =
   (getFileEvents ctx ++ [Reply (sorryICannotUnderstand t)], Returned tt)).
Proof.
  intros uid.
  destruct (unclassifiable ctx) eqn:Hcls.
  { left. split; [reflexivity|]. now apply unclassifiable_trace. }
  destruct (photoBranch ctx) eqn:Hphoto.
  { destruct (maskBotToken options (photoUrlOf options ctx) mask) as [masked|] eqn:Hmask.
    - right. left. split; [reflexivity|]. exists masked. split; [reflexivity|].
      apply (photo_branch_trace options t ctx masked Hphoto Hmask).
    - right. right. left. split; [reflexivity|]. split.
      + destruct (tokenCompiles options) eqn:Htok; [|reflexivity].
        destruct (mask_defined options (photoUrlOf options ctx) Htok) as [m Hm].
        congruence.
      + apply (photo_branch_thrown options t ctx Hphoto Hmask). }
  destruct (textBranch ctx) eqn:Htext.
  { right. right. right. left. split; [reflexivity|].
    destruct (text_branch_events options t ctx Htext) as [incoming [E [Hne Etr]]].
    destruct (text_branch_trace options t ctx Htext) as [incoming' [E' [_ Efull]]].
    exists incoming. split; [exact E|]. split; [exact Hne|].
    assert (incoming' = incoming) by congruence. subst incoming'.
    cbv zeta in Efull.
    rewrite (surjective_pairing (onMessage options t ctx)).
    f_equal; [exact Etr | now rewrite Efull]. }
  right. right. right. right.
  split; [reflexivity|]. split; [reflexivity|]. split; [reflexivity|].
  now apply notice_branch_trace.
Qed.

(** ** What every update gets *)

Lemma persistedBeforeCompletion_true (tr : list Event) :
  persistedBeforeCompletion true tr = true.
Proof. induction tr as [|e tr IH]; [reflexivity|]. destruct e; exact IH. Qed.

Lemma persistedBeforeCompletion_getFile (ctx : Context) (w : bool) (tr : list Event) :
  persistedBeforeCompletion w (getFileEvents ctx ++ tr)
  = persistedBeforeCompletion w tr.
Proof.
  unfold getFileEvents.
  destruct (option_map msg_photo (message ctx)) as [[ph|]|]; reflexivity.
Qed.




(** X2.  An update that is not unclassifiable, has no usable photo path
    and lacks either a non-empty text or caption, or a sender, gets the
    plain "cannot understand" notice and nothing else: no row is written
    and no completion is asked for. *)
Theorem onMessage_notice_branch (options : BotAppOptions) (t : Languages)
        (ctx : Context) :
  unclassifiable ctx = false ->
  photoBranch ctx = false ->
  Js.truthy (incomingOf ctx) = false \/ from_id ctx = None ->
  replies (trace (onMessage options t ctx)) = [sorryICannotUnderstand t] /\
  storeWrites (trace (onMessage options t ctx)) = [] /\
  completionCalls (trace (onMessage options t ctx)) = 0 /\
  completion (onMessage options t ctx) = Returned tt.
Proof.
  intros Hcls Hphoto Hor.
  assert (Htext : textBranch ctx = false).
  { unfold textBranch. rewrite Hphoto. cbn.
    destruct Hor as [-> | ->]; [reflexivity | apply andb_false_r]. }
  rewrite (notice_branch_trace options t ctx Hcls Hphoto Htext).
  unfold trace, completion, completionCalls, fst, snd.
  rewrite replies_app, storeWrites_app, chatCalls_app, chatWithImageCalls_app.
  destruct (getFileEvents_silent ctx) as [-> [_ [-> ->]]].
  assert (Hci : chatWithImageCalls (getFileEvents ctx) = []).
  { unfold getFileEvents.
    destruct (option_map msg_photo (message ctx)) as [[ph|]|]; reflexivity. }
  rewrite Hci. repeat split.
Qed.

Lemma onMessage_notice_branch_witness :
  let ctx := {| from_id := None;
                message := Some {| msg_text := Some "hello"; msg_caption := None;
                                   msg_photo := None; reply_to_message := None |};
                getFile_result := {| file_path := None |} |} in
  unclassifiable ctx = false /\ photoBranch ctx = false /\ from_id ctx = None /\
  replies (trace (onMessage sampleOptions sampleLanguages ctx))
  = ["Sorry, I cannot understand"] /\
  storeWrites (trace (onMessage sampleOptions sampleLanguages ctx)) = [].
Proof.
  cbv zeta. split; [reflexivity|]. split; [reflexivity|]. split; [reflexivity|].
  destruct (onMessage_notice_branch sampleOptions sampleLanguages
              {| from_id := None;
                 message := Some {| msg_text := Some "hello"; msg_caption := None;
                                    msg_photo := None; reply_to_message := None |};
                 getFile_result := {| file_path := None |} |}
              eq_refl eq_refl (or_intror eq_refl)) as [Hr [Hs _]].
  split; [exact Hr | exact Hs].
Defined.

(** X3.  A text-branch update writes exactly two rows, whatever the
    completion answers: first the incoming message, attributed to the
    sender, then the joined response, attributed to "0". *)
Theorem text_branch_store_writes (options : BotAppOptions) (t : Languages)
        (ctx : Context) (incoming : string) :
  textBranch ctx = true ->
  incomingOf ctx = Some incoming ->
  exists response,
    storeWrites (trace (onMessage options t ctx)) =
    [Insert (init {| payload := incoming;
                     userId := Js.String_ (from_id ctx);
                     senderId := Js.String_ (from_id ctx);
                     type := type_text |} None);
     Insert (init {| payload := response;
                     userId := Js.String_ (from_id ctx);
                     senderId := "0";
                     type := type_text |} None)].
Proof.
  intros H Hinc.
  destruct (text_branch_events options t ctx H) as [incoming' [E [Hne Etr]]].
  assert (incoming' = incoming) by congruence. subst incoming'.
  exists (Js.join "\n" (outputsOf options ctx)).
  rewrite Etr.
  change (?x ++ Insert ?b :: ?y) with (x ++ [Insert b] ++ y).
  rewrite !storeWrites_app.
  destruct (getFileEvents_silent ctx) as [_ [_ [_ ->]]].
  assert (Hd : forall outs, storeWrites (deliveryEvents outs) = []).
  { induction outs as [|m rest IH]; [reflexivity|].
    unfold deliveryEvents in *. cbn [flat_map]. rewrite storeWrites_app, IH.
    destruct (isEmpty m); reflexivity. }
  rewrite Hd. destruct (forallb isEmpty (outputsOf options ctx)); reflexivity.
Qed.

Lemma text_branch_store_writes_witness :
  textBranch textReplyUpdate = true /\
  incomingOf textReplyUpdate = Some "hello" /\
  exists response,
    storeWrites (trace (onMessage (optionsWithOutputs [""; ""]) sampleLanguages
                                  textReplyUpdate))
    = [Insert (row "hello" "42" "42" type_text);
       Insert (row response "42" "0" type_text)].
Proof.
  split; [reflexivity|]. split; [reflexivity|].
  exact (text_branch_store_writes (optionsWithOutputs [""; ""]) sampleLanguages
           textReplyUpdate "hello" eq_refl eq_refl).
Defined.

Lemma getFileEvents_no_image_call (ctx : Context) :
  chatWithImageCalls (getFileEvents ctx) = [].
Proof.
  unfold getFileEvents.
  destruct (option_map msg_photo (message ctx)) as [[ph|]|]; reflexivity.
Qed.

Lemma deliveryEvents_no_image_call (outputs : list string) :
  chatWithImageCalls (deliveryEvents outputs) = [] /\
  storeWrites (deliveryEvents outputs) = [].
Proof.
  induction outputs as [|m rest [IH1 IH2]]; [split; reflexivity|].
  unfold deliveryEvents in *. cbn [flat_map].
  rewrite chatWithImageCalls_app, storeWrites_app, IH1, IH2.
  destruct (isEmpty m); split; reflexivity.
Qed.

(** X4.  Whatever the update, the handler asks for at most one
    completion, and never before it has written a row: the incoming text
    (text branch) or the photo row (photo branch) is in the store when
    the completion client is called. *)
Theorem onMessage_persists_before_completion (options : BotAppOptions)
        (t : Languages) (ctx : Context) :
  persistedBeforeCompletion false (trace (onMessage options t ctx)) = true /\
  completionCalls (trace (onMessage options t ctx)) <= 1.
Proof.
  unfold completionCalls.
  destruct (onMessage_cases options t ctx)
    as [[_ E]|[[_ [masked [_ E]]]|[[_ [_ E]]|[[_ [incoming [_ [_ E]]]]|[_ [_ [_ E]]]]]]];
    cbv zeta in E; rewrite E; unfold trace, fst.
  - rewrite persistedBeforeCompletion_getFile, chatCalls_app, chatWithImageCalls_app.
    destruct (getFileEvents_silent ctx) as [_ [_ [-> _]]].
    rewrite getFileEvents_no_image_call. split; [reflexivity | cbn; lia].
  - destruct (incomingOf ctx) as [[|a s]|];
      destruct (chatWithImage _ _ _ _) as [[|b u]|]; unfold ifTruthy; split; cbn;
      try reflexivity; lia.
  - destruct (incomingOf ctx) as [[|a s]|]; unfold ifTruthy; split; cbn;
      try reflexivity; lia.
  - split.
    + rewrite <- app_assoc. rewrite persistedBeforeCompletion_getFile.
      cbn. apply persistedBeforeCompletion_true.
    + change (?x ++ Insert ?b :: ?y) with (x ++ [Insert b] ++ y).
      rewrite !chatCalls_app, !chatWithImageCalls_app.
      destruct (getFileEvents_silent ctx) as [_ [_ [-> _]]].
      rewrite getFileEvents_no_image_call.
      destruct (deliveryEvents_quiet (outputsOf options ctx)) as [_ ->].
      destruct (deliveryEvents_no_image_call (outputsOf options ctx)) as [-> _].
      destruct (forallb isEmpty (outputsOf options ctx)); cbn; lia.
  - rewrite persistedBeforeCompletion_getFile, chatCalls_app, chatWithImageCalls_app.
    destruct (getFileEvents_silent ctx) as [_ [_ [-> _]]].
    rewrite getFileEvents_no_image_call. split; [reflexivity | cbn; lia].
Qed.

(** X5.  Every row the handler writes for an update carries that
    update's [String(ctx.from?.id)] as [userId], and rows are written one
    by one: the handler never submits a batch. *)
Theorem onMessage_rows_share_userId (options : BotAppOptions) (t : Languages)
        (ctx : Context) :
  Forall (fun r => userId (entity r) = Js.String_ (from_id ctx))
         (inserts (trace (onMessage options t ctx))) /\
  storeWrites (trace (onMessage options t ctx))
  = map Insert (inserts (trace (onMessage options t ctx))).
Proof.
  destruct (onMessage_cases options t ctx)
    as [[_ E]|[[_ [masked [_ E]]]|[[_ [_ E]]|[[_ [incoming [_ [_ E]]]]|[_ [_ [_ E]]]]]]];
    cbv zeta in E; rewrite E; unfold trace, fst.
  - rewrite inserts_app, storeWrites_app.
    destruct (getFileEvents_silent ctx) as [_ [-> [_ ->]]]. split; [constructor | reflexivity].
  - destruct (incomingOf ctx) as [[|a s]|];
      destruct (chatWithImage _ _ _ _) as [[|b u]|]; unfold ifTruthy; split;
      try reflexivity; cbn; repeat constructor.
  - destruct (incomingOf ctx) as [[|a s]|]; unfold ifTruthy; split;
      try reflexivity; cbn; repeat constructor.
  - change (?x ++ Insert ?b :: ?y) with (x ++ [Insert b] ++ y).
    rewrite !inserts_app, !storeWrites_app.
    destruct (getFileEvents_silent ctx) as [_ [-> [_ ->]]].
    destruct (deliveryEvents_quiet (outputsOf options ctx)) as [-> _].
    destruct (deliveryEvents_no_image_call (outputsOf options ctx)) as [_ ->].
    destruct (forallb isEmpty (outputsOf options ctx)); split;
      try reflexivity; repeat constructor.
  - rewrite inserts_app, storeWrites_app.
    destruct (getFileEvents_silent ctx) as [_ [-> [_ ->]]]. split; [constructor | reflexivity].
Qed.



(** ** More on the photo branch *)

Lemma list_ascii_of_string_app (a b : string) :
  list_ascii_of_string (a ++ b) = list_ascii_of_string a ++ list_ascii_of_string b.
Proof. induction a as [|c a IH]; [reflexivity|]. simpl. now rewrite IH. Qed.

Lemma includes_app_r (w a b : list ascii) :
  Js.includes w b = true -> Js.includes w (a ++ b) = true.
Proof.
  intros H. induction a as [|c a IH]; [exact H|].
  change ((c :: a) ++ b) with (c :: (a ++ b)).
  rewrite includes_cons, IH. apply orb_true_r.
Qed.

Lemma includes_middle (w a b : list ascii) : Js.includes w (a ++ w ++ b) = true.
Proof.
  apply includes_app_r. destruct (w ++ b) eqn:E.
  - destruct w; [reflexivity | discriminate E].
  - rewrite includes_cons, <- E, startsWith_app. reflexivity.
Qed.

(** The download URL always holds the token. *)
Lemma getFileUrl_includes_token (token filePath : string) :
  Js.String_includes (getFileUrl (new_TelegramApiClient token) filePath) token = true.
Proof.
  unfold Js.String_includes, getFileUrl, new_TelegramApiClient. cbn [baseUrl api_botToken].
  rewrite !list_ascii_of_string_app, app_assoc.
  apply includes_middle.
Qed.

(** X7.  In the photo branch the user gets exactly two replies: the
    "reading image" acknowledgement and then either the generated text
    or, when the completion yields nothing usable ([undefined] or the
    empty string), the "cannot understand" notice; in that second case
    the photo row is the last write. *)
Theorem photo_branch_replies (options : BotAppOptions) (t : Languages)
        (ctx : Context) :
  photoBranch ctx = true ->
  tokenCompiles options = true ->
  let message :=
    chatWithImage (aiClient options) "friend"
                  (ifTruthy (incomingOf ctx) (fun c => [c]) [])
                  (photoUrlOf options ctx) in
  replies (trace (onMessage options t ctx)) =
  [(readingImage t ++ "...")%string;
   ifTruthy message (fun m => m) (sorryICannotUnderstand t)] /\
  (Js.truthy message = false ->
   exists before masked,
     storeWrites (trace (onMessage options t ctx)) =
     before ++ [Insert (row masked (Js.String_ (from_id ctx))
                            (Js.String_ (from_id ctx)) type_photo)]).
Proof.
  intros Hphoto Htoken message.
  destruct (photo_branch_events options t ctx Hphoto Htoken) as [masked [_ Etr]].
  cbv zeta in Etr. fold message in Etr. rewrite Etr. split.
  - rewrite !replies_app.
    assert (Hc : forall v uid,
               replies (ifTruthy v (fun c => [Insert (row c uid uid type_text)]) []) = []).
    { intros [[|a s]|] uid; reflexivity. }
    rewrite Hc. destruct message as [[|a s]|]; reflexivity.
  - intros Hm. rewrite (ifTruthy_falsy _ _ _ Hm).
    eexists. exists masked.
    rewrite !storeWrites_app. cbn [storeWrites filter].
    rewrite app_nil_r, app_assoc. reflexivity.
Qed.

Lemma photo_branch_replies_witness :
  let options := optionsWithOutputs [] in
  photoBranch captionedPhotoUpdate = true /\
  tokenCompiles options = true /\
  replies (trace (onMessage options sampleLanguages captionedPhotoUpdate)) =
  ["Reading image..."; "Sorry, I cannot understand"].
Proof.
  cbv zeta. split; [reflexivity|]. split; [reflexivity|].
  destruct (photo_branch_replies (optionsWithOutputs []) sampleLanguages
              captionedPhotoUpdate eq_refl eq_refl) as [E _].
  exact E.
Defined.

(** X8.  In the photo branch with a plain token, the payload of the photo
    row does not contain the token, while the URL handed to the image
    completion does: the token is kept out of the store and is sent to
    the completion client. *)
Theorem photo_branch_token_exposure (options : BotAppOptions) (t : Languages)
        (ctx : Context) :
  photoBranch ctx = true ->
  plainToken (botToken options) = true ->
  exists masked inputs imageUrl,
    In (Insert (row masked (Js.String_ (from_id ctx))
                    (Js.String_ (from_id ctx)) type_photo))
       (trace (onMessage options t ctx)) /\
    Js.String_includes masked (botToken options) = false /\
    chatWithImageCalls (trace (onMessage options t ctx))
    = [("friend", inputs, imageUrl)] /\
    Js.String_includes imageUrl (botToken options) = true.
Proof.
  intros Hphoto Hplain.
  pose proof (plainToken_compiles options Hplain) as Htoken.
  destruct (photo_branch_events options t ctx Hphoto Htoken) as [masked [Hmask Etr]].
  cbv zeta in Etr.
  exists masked, (ifTruthy (incomingOf ctx) (fun c => [c]) []), (photoUrlOf options ctx).
  split; [|split; [|split]].
  - rewrite Etr. apply in_or_app. right. apply in_or_app. right.
    apply in_or_app. left. left. reflexivity.
  - pose proof (mask_plain options (photoUrlOf options ctx) Hplain) as Hm.
    match type of Hm with
    | _ = Some ?x => replace masked with x by congruence
    end.
    unfold Js.String_includes.
    rewrite list_ascii_of_string_of_list_ascii.
    exact (mask_plain_no_token options (photoUrlOf options ctx) Hplain).
  - rewrite Etr, !chatWithImageCalls_app.
    destruct (incomingOf ctx) as [[|a s]|];
      destruct (chatWithImage _ _ _ _) as [[|b u]|]; reflexivity.
  - apply getFileUrl_includes_token.
Qed.

Lemma photo_branch_token_exposure_witness :
  photoBranch captionedPhotoUpdate = true /\
  plainToken (botToken sampleOptions) = true /\
  exists masked inputs imageUrl,
    In (Insert (row masked "42" "42" type_photo))
       (trace (onMessage sampleOptions sampleLanguages captionedPhotoUpdate)) /\
    Js.String_includes masked (botToken sampleOptions) = false /\
    chatWithImageCalls (trace (onMessage sampleOptions sampleLanguages
                                         captionedPhotoUpdate))
    = [("friend", inputs, imageUrl)] /\
    Js.String_includes imageUrl (botToken sampleOptions) = true.
Proof.
  split; [reflexivity|]. split; [reflexivity|].
  exact (photo_branch_token_exposure sampleOptions sampleLanguages
           captionedPhotoUpdate eq_refl eq_refl).
Defined.

(** ** More on [maskBotToken] *)

Section LiteralMaskCompose.

Import RegExp.

Variable t0 : ascii.
Variable tk : list ascii.
Variable ptail : list ascii.

Let tok : list ascii := t0 :: tk.
Let template : list ascii := "$"%char :: ptail.

Hypothesis template_plain :
  forall matched before after,
    GetSubstitution matched before after template = template.
Hypothesis tok_no_dollar : forall c, In c tok -> c <> "$"%char.
Hypothesis head_not_in_ptail : forall c, In c ptail -> c <> t0.

Let step := replaceFrom_literal_step tok template template_plain.

Lemma tok_not_nil : tok <> [].
Proof. discriminate. Qed.

(** With a template that uses no [$] pattern, the loop depends neither
    on the index it is at nor on the text before it. *)
Lemma replaceFrom_literal_indep :
  forall fuel fuel' whole whole' pos pos' rest,
    List.length rest < fuel -> List.length rest < fuel' ->
    replaceFrom fuel (map TChar tok) template whole pos rest
    = replaceFrom fuel' (map TChar tok) template whole' pos' rest.
Proof.
  induction fuel as [|fuel IH]; intros fuel' whole whole' pos pos' rest H H'; [lia|].
  destruct fuel' as [|fuel']; [lia|].
  rewrite (step fuel whole pos rest tok_not_nil).
  rewrite (step fuel' whole' pos' rest tok_not_nil).
  destruct (Js.startsWith tok rest) eqn:E.
  - f_equal. apply IH; rewrite length_skipn;
      apply startsWith_length in E; unfold tok in *; simpl in *; lia.
  - destruct rest as [|c rest]; [reflexivity|].
    f_equal. apply IH; simpl in *; lia.
Qed.

(** A stretch that does not hold the first character of the token is
    copied. *)
Lemma replaceAll_skip (a r : list ascii) :
  (forall c, In c a -> c <> t0) ->
  replaceAll (map TChar tok) template (a ++ r)
  = a ++ replaceAll (map TChar tok) template r.
Proof.
  induction a as [|x a IH]; intros Ha; [reflexivity|].
  unfold replaceAll at 1.
  change (List.length ((x :: a) ++ r)) with (S (List.length (a ++ r))).
  rewrite (step _ _ _ _ tok_not_nil).
  change ((x :: a) ++ r) with (x :: (a ++ r)).
  replace (Js.startsWith tok (x :: a ++ r)) with false.
  - cbn [app]. f_equal. rewrite <- IH by (intros c Hc; apply Ha; now right).
    unfold replaceAll. apply replaceFrom_literal_indep; lia.
  - symmetry. unfold tok. simpl. apply andb_false_iff. left.
    apply Ascii.eqb_neq. intros E. apply (Ha x); [now left | now symmetry].
Qed.

(** An occurrence of the token at the front is replaced by the template. *)
Lemma replaceAll_token (r : list ascii) :
  replaceAll (map TChar tok) template (tok ++ r)
  = template ++ replaceAll (map TChar tok) template r.
Proof.
  unfold replaceAll at 1.
  rewrite (step _ _ _ _ tok_not_nil), startsWith_app.
  f_equal.
  rewrite skipn_app, skipn_all, Nat.sub_diag. cbn [skipn app].
  unfold replaceAll. apply replaceFrom_literal_indep; [|lia].
  rewrite length_app. unfold tok. simpl. lia.
Qed.

Lemma template_token_free : Js.includes tok template = false.
Proof.
  unfold template. rewrite includes_cons. apply orb_false_iff. split.
  - unfold tok. simpl. apply andb_false_iff. left.
    apply Ascii.eqb_neq. apply tok_no_dollar. now left.
  - rewrite <- (app_nil_r ptail). unfold tok.
    rewrite includes_skip by exact head_not_in_ptail. reflexivity.
Qed.

(** The texts the loop leaves as they are are those without the token. *)
Lemma replaceAll_fixed_iff (l : list ascii) :
  replaceAll (map TChar tok) template l = l <-> Js.includes tok l = false.
Proof.
  split.
  - intros E. rewrite <- E.
    apply (replaceAll_includes t0 tk ptail template_plain tok_no_dollar
                               head_not_in_ptail).
  - intros H. unfold replaceAll.
    apply (replaceFrom_no_occurrence t0 tk ptail template_plain); [lia | exact H].
Qed.

End LiteralMaskCompose.

Section MaskBotTokenMore.

Import RegExp.

Variable options : BotAppOptions.
Hypothesis plain : plainToken (botToken options) = true.

Let tokenUnits : list ascii := list_ascii_of_string (botToken options).
Let placeholderUnits : list ascii := list_ascii_of_string "${{BOT_TOKEN}}".

(** The list-level facts, for the token and the placeholder at hand. *)
Lemma mask_units_facts :
  exists t0 tk,
    tokenUnits = t0 :: tk /\
    (forall c, In c (list_ascii_of_string "{{BOT_TOKEN}}") -> c <> t0) /\
    (forall l, replaceAll (map TChar tokenUnits) placeholderUnits l = l
               <-> Js.includes tokenUnits l = false) /\
    (forall a r, (forall c, In c a -> c <> t0) ->
                 replaceAll (map TChar tokenUnits) placeholderUnits (a ++ r)
                 = a ++ replaceAll (map TChar tokenUnits) placeholderUnits r) /\
    (forall r, replaceAll (map TChar tokenUnits) placeholderUnits (tokenUnits ++ r)
               = placeholderUnits
                 ++ replaceAll (map TChar tokenUnits) placeholderUnits r) /\
    Js.includes tokenUnits placeholderUnits = false.
Proof.
  destruct (plainToken_inv options plain) as [t0 [tk [E [Hlit Hhead]]]].
  fold tokenUnits in E, Hlit.
  pose proof (literalChar_not_dollar _ Hlit) as Hdollar.
  exists t0, tk. rewrite E in *.
  split; [reflexivity|]. split; [exact Hhead|].
  split; [|split; [|split]].
  - intros l. apply (replaceAll_fixed_iff t0 tk _ (placeholder_plain) Hdollar Hhead).
  - intros a r Ha. apply (replaceAll_skip t0 tk _ (placeholder_plain) a r Ha).
  - intros r. apply (replaceAll_token t0 tk _ (placeholder_plain) r).
  - apply (template_token_free t0 tk _ Hdollar Hhead).
Qed.

Lemma mask_fixed_iff (s : string) :
  maskBotToken options s mask = Some s
  <-> Js.String_includes s (botToken options) = false.
Proof.
  destruct mask_units_facts as [t0 [tk [_ [_ [Hfix _]]]]].
  rewrite (mask_plain options s plain). unfold Js.String_includes.
  fold tokenUnits. rewrite <- Hfix. split.
  - intros E. injection E as E.
    rewrite <- E at 2. now rewrite list_ascii_of_string_of_list_ascii.
  - intros E. fold placeholderUnits. rewrite E.
    now rewrite string_of_list_ascii_of_string.
Qed.

Lemma mask_of_token : maskBotToken options (botToken options) mask = Some "${{BOT_TOKEN}}".
Proof.
  destruct mask_units_facts as [t0 [tk [_ [_ [_ [_ [Htok _]]]]]]].
  rewrite (mask_plain options _ plain). fold tokenUnits placeholderUnits.
  rewrite <- (app_nil_r tokenUnits) at 2. rewrite Htok.
  change (replaceAll (map TChar tokenUnits) placeholderUnits [])
    with (replaceFrom 1 (map TChar tokenUnits) placeholderUnits [] 0 []).
  destruct mask_units_facts as [t1 [tk1 [E _]]]. rewrite E. reflexivity.
Qed.

Lemma mask_of_placeholder :
  maskBotToken options "${{BOT_TOKEN}}" mask = Some "${{BOT_TOKEN}}".
Proof.
  apply mask_fixed_iff. unfold Js.String_includes.
  destruct mask_units_facts as [t0 [tk [_ [_ [_ [_ [_ H]]]]]]]. exact H.
Qed.

End MaskBotTokenMore.

(** X9.  With a plain token, the texts [mask] returns unchanged are
    exactly those that do not contain the token. *)
Theorem mask_unchanged_iff_token_free (options : BotAppOptions) (s : string) :
  plainToken (botToken options) = true ->
  (maskBotToken options s mask = Some s
   <-> Js.String_includes s (botToken options) = false).
Proof. intros H. apply mask_fixed_iff. exact H. Qed.

Lemma mask_unchanged_iff_token_free_witness :
  plainToken (botToken sampleOptions) = true /\
  (maskBotToken sampleOptions "photos/file_1.jpg" mask = Some "photos/file_1.jpg"
   <-> Js.String_includes "photos/file_1.jpg" (botToken sampleOptions) = false).
Proof.
  split; [reflexivity|].
  apply (mask_unchanged_iff_token_free sampleOptions). reflexivity.
Defined.

(** X10.  With a plain token, [mask] sends the token and the placeholder
    to the same text, the placeholder: it loses which of the two the
    input held, so no function undoes it on every input. *)
Theorem mask_not_injective (options : BotAppOptions) :
  plainToken (botToken options) = true ->
  maskBotToken options (botToken options) mask = Some "${{BOT_TOKEN}}" /\
  maskBotToken options "${{BOT_TOKEN}}" mask = Some "${{BOT_TOKEN}}" /\
  botToken options <> "${{BOT_TOKEN}}" /\
  ~ exists undo : string -> string,
      forall s m, maskBotToken options s mask = Some m -> undo m = s.
Proof.
  intros H.
  pose proof (mask_of_token options H) as Ht.
  pose proof (mask_of_placeholder options H) as Hp.
  assert (Hne : botToken options <> "${{BOT_TOKEN}}").
  { intros E. rewrite E in H. discriminate H. }
  split; [exact Ht|]. split; [exact Hp|]. split; [exact Hne|].
  intros [undo Hundo]. apply Hne.
  rewrite <- (Hundo _ _ Ht). apply (Hundo _ _ Hp).
Qed.

Lemma mask_not_injective_witness :
  plainToken (botToken sampleOptions) = true /\
  maskBotToken sampleOptions (botToken sampleOptions) mask = Some "${{BOT_TOKEN}}" /\
  maskBotToken sampleOptions "${{BOT_TOKEN}}" mask = Some "${{BOT_TOKEN}}".
Proof.
  split; [reflexivity|].
  destruct (mask_not_injective sampleOptions eq_refl) as [H1 [H2 _]].
  split; [exact H1 | exact H2].
Defined.

Lemma string_of_list_ascii_app (a b : list ascii) :
  string_of_list_ascii (a ++ b)
  = (string_of_list_ascii a ++ string_of_list_ascii b)%string.
Proof. induction a as [|c a IH]; [reflexivity|]. simpl. now rewrite IH. Qed.

Lemma platformToken_head_digit (token : string) :
  platformToken token = true ->
  exists t0 tk, list_ascii_of_string token = t0 :: tk /\ RegExp.isDigit t0 = true.
Proof.
  unfold platformToken. destruct (list_ascii_of_string token) as [|c w]; [discriminate|].
  intros H. apply andb_true_iff in H. destruct H as [H _]. now exists c, w.
Qed.

(** X11.  With a token of the platform's format, masking the download URL
    of a file gives the URL with the placeholder where the token was,
    followed by the masked file path: nothing else of the URL changes. *)
Theorem masked_download_url (options : BotAppOptions) (filePath : string) :
  platformToken (botToken options) = true ->
  exists maskedPath,
    maskBotToken options filePath mask = Some maskedPath /\
    maskBotToken options
      (getFileUrl (new_TelegramApiClient (botToken options)) filePath) mask
    = Some ("https://api.telegram.org/file/bot${{BOT_TOKEN}}/" ++ maskedPath)%string.
Proof.
  intros Hplatform.
  pose proof (platformToken_plain _ Hplatform) as Hplain.
  destruct (platformToken_head_digit _ Hplatform) as [d [dk [Ed Hdigit]]].
  destruct (mask_units_facts options Hplain)
    as [t0 [tk [E [_ [_ [Hskip [Htok _]]]]]]].
  assert (t0 = d) by congruence. subst t0.
  assert (Hnodigit : forall a, forallb (fun c => negb (RegExp.isDigit c)) a = true ->
                               forall c, In c a -> c <> d).
  { intros a Ha c Hc ->. rewrite forallb_forall in Ha.
    specialize (Ha _ Hc). rewrite Hdigit in Ha. discriminate Ha. }
  eexists. split; [apply (mask_plain options filePath Hplain)|].
  rewrite (mask_plain options _ Hplain). f_equal.
  unfold getFileUrl, new_TelegramApiClient. cbn [baseUrl api_botToken].
  rewrite !list_ascii_of_string_app.
  change (list_ascii_of_string "/") with ["/"%char].
  rewrite app_assoc.
  rewrite (Hskip (list_ascii_of_string "https://api.telegram.org"
                  ++ list_ascii_of_string "/file/bot"))
    by (apply Hnodigit; reflexivity).
  rewrite Htok.
  rewrite (Hskip ["/"%char]) by (apply Hnodigit; reflexivity).
  rewrite !string_of_list_ascii_app. reflexivity.
Qed.

Lemma masked_download_url_witness :
  platformToken (botToken sampleOptions) = true /\
  exists maskedPath,
    maskBotToken sampleOptions "photos/file_1.jpg" mask = Some maskedPath /\
    maskBotToken sampleOptions
      (getFileUrl (new_TelegramApiClient (botToken sampleOptions)) "photos/file_1.jpg")
      mask
    = Some ("https://api.telegram.org/file/bot${{BOT_TOKEN}}/" ++ maskedPath)%string.
Proof.
  split; [reflexivity|].
  apply (masked_download_url sampleOptions). reflexivity.
Defined.

(** ** The deployment script *)

Lemma replaceStringFrom_eq (w template whole : list ascii) (pos : nat)
      (rest : list ascii) :
  JsText.replaceStringFrom w template whole pos rest =
  if Js.startsWith w rest then
    RegExp.GetSubstitution w (firstn pos whole) (skipn (List.length w) rest) template
    ++ skipn (List.length w) rest
  else
    match rest with
    | [] => []
    | c :: r => c :: JsText.replaceStringFrom w template whole (S pos) r
    end.
Proof. destruct rest; reflexivity. Qed.

Lemma replaceStringFrom_keeps_later_occurrence (w template whole : list ascii) :
  forall a pos b,
    Js.includes w b = true ->
    Js.includes w (JsText.replaceStringFrom w template whole pos (a ++ w ++ b)) = true.
Proof.
  induction a as [|c a IH]; intros pos b Hb; rewrite replaceStringFrom_eq.
  - cbn [app]. rewrite startsWith_app. apply includes_app_r.
    rewrite skipn_app, skipn_all, Nat.sub_diag. exact Hb.
  - destruct (Js.startsWith w ((c :: a) ++ w ++ b)) eqn:E.
    + apply includes_app_r.
      rewrite app_assoc, skipn_app.
      apply includes_app_r.
      replace (List.length w - List.length ((c :: a) ++ w)) with 0
        by (rewrite length_app; lia).
      exact Hb.
    + cbn [app]. rewrite includes_cons, IH by exact Hb. apply orb_true_r.
Qed.

(** X12.  The deployment script hides only the first occurrence of the
    token in the line it logs: when the webhook URL holds the token and
    then, further on, holds it again, the logged line contains the
    token. *)
Theorem postDeploy_log_hides_first_occurrence_only (env : Env) (a b : string) :
  TELEGRAM_WEBHOOK_URL env = Some (a ++ BOT_TOKEN env ++ b)%string ->
  Js.String_includes b (BOT_TOKEN env) = true ->
  exists line url,
    postDeploy env = ([ConsoleLog line; Fetch url], Returned tt) /\
    Js.String_includes line (BOT_TOKEN env) = true.
Proof.
  intros Hurl Hb. unfold postDeploy. rewrite Hurl.
  eexists. eexists. split; [reflexivity|].
  unfold Js.String_includes, JsText.replaceString in *.
  rewrite list_ascii_of_string_app, list_ascii_of_string_of_list_ascii.
  apply includes_app_r.
  rewrite !list_ascii_of_string_app.
  apply replaceStringFrom_keeps_later_occurrence. exact Hb.
Qed.

Lemma postDeploy_log_hides_first_occurrence_only_witness :
  let env := {| BOT_TOKEN := "123456:ABC-DEF";
                BOT_INFO := "{}";
                ALLOWED_USER_IDS := [];
                TELEGRAM_WEBHOOK_URL :=
                  Some "https://example.org/api/123456:ABC-DEF/hook?secret=123456:ABC-DEF";
                PROTECTED_BOT := true;
                WEBHOOK_SECRET := None;
                OPENAI_API_KEY := "sk" |} in
  exists line url,
    postDeploy env = ([ConsoleLog line; Fetch url], Returned tt) /\
    Js.String_includes line (BOT_TOKEN env) = true.
Proof.
  cbv zeta.
  apply (postDeploy_log_hides_first_occurrence_only _
           "https://example.org/api/" "/hook?secret=123456:ABC-DEF");
    reflexivity.
Defined.

Example postDeploy_log_line :
  fst (postDeploy {| BOT_TOKEN := "123456:ABC-DEF";
                     BOT_INFO := "{}";
                     ALLOWED_USER_IDS := [];
                     TELEGRAM_WEBHOOK_URL :=
                       Some "https://example.org/api/123456:ABC-DEF/hook?secret=123456:ABC-DEF";
                     PROTECTED_BOT := true;
                     WEBHOOK_SECRET := None;
                     OPENAI_API_KEY := "sk" |})
  = [ConsoleLog "Setting webhook to https://example.org/api/***/hook?secret=123456:ABC-DEF";
     Fetch "https://api.telegram.org/bot123456:ABC-DEF/setWebhook?url=https://example.org/api/123456:ABC-DEF/hook?secret=123456:ABC-DEF"].
Proof. reflexivity. Qed.

Lemma indexOfUnits_eq (w l : list ascii) :
  indexOfUnits w l =
  if Js.startsWith w l then Some 0
  else match l with
       | [] => None
       | _ :: r => option_map S (indexOfUnits w r)
       end.
Proof. destruct l; reflexivity. Qed.

Lemma startsWith_app_cases (w x : list ascii) (c : ascii) (z : list ascii) :
  Js.startsWith w (x ++ c :: z) = true -> Js.startsWith w x = true \/ In c w.
Proof.
  revert x. induction w as [|a w IH]; intros x H; [now left|].
  destruct x as [|b x].
  - cbn [app] in H. apply startsWith_cons in H. destruct H as [-> _].
    right. now left.
  - change ((b :: x) ++ c :: z) with (b :: (x ++ c :: z)) in H.
    apply startsWith_cons in H. destruct H as [-> H].
    destruct (IH x H) as [H1 | H1].
    + left. apply startsWith_cons. now split.
    + right. now right.
Qed.

Lemma startsWith_firstn (w l : list ascii) (n : nat) :
  Js.startsWith w (firstn n l) = true -> Js.startsWith w l = true.
Proof.
  revert l n. induction w as [|a w IH]; intros l n H; [reflexivity|].
  destruct n as [|n]; [discriminate H|].
  destruct l as [|b l]; [discriminate H|].
  cbn [firstn] in H. apply startsWith_cons in H. destruct H as [-> H].
  apply startsWith_cons. split; [reflexivity|]. now apply (IH l n).
Qed.

(** What [replace] returns, by where the pattern first occurs. *)
Lemma replaceStringFrom_indexOf (w template whole : list ascii) :
  forall rest pos,
    JsText.replaceStringFrom w template whole pos rest =
    match indexOfUnits w rest with
    | Some i =>
        firstn i rest
        ++ RegExp.GetSubstitution w (firstn (pos + i) whole)
                                  (skipn (i + List.length w) rest) template
        ++ skipn (i + List.length w) rest
    | None => rest
    end.
Proof.
  induction rest as [|c r IH]; intros pos;
    rewrite replaceStringFrom_eq, indexOfUnits_eq.
  - destruct (Js.startsWith w []); [|reflexivity].
    rewrite Nat.add_0_r. reflexivity.
  - destruct (Js.startsWith w (c :: r)).
    + rewrite Nat.add_0_r. reflexivity.
    + rewrite IH. destruct (indexOfUnits w r) as [i|]; [|reflexivity].
      cbn [option_map firstn app]. rewrite Nat.add_succ_r. reflexivity.
Qed.

(** Putting a stretch of stars where the first occurrence was leaves no
    occurrence, when none follows and the token holds no star. *)
Lemma first_occurrence_starred (t0 : ascii) (tk : list ascii) (s : ascii)
      (stars suf : list ascii) :
  (forall c, In c (s :: stars) -> c <> t0) ->
  ~ In s (t0 :: tk) ->
  Js.includes (t0 :: tk) suf = false ->
  forall rest i,
    indexOfUnits (t0 :: tk) rest = Some i ->
    Js.includes (t0 :: tk) (firstn i rest ++ (s :: stars) ++ suf) = false.
Proof.
  intros Hhead Hstar Hsuf.
  induction rest as [|c r IH]; intros i Hi; rewrite indexOfUnits_eq in Hi.
  - discriminate Hi.
  - destruct (Js.startsWith (t0 :: tk) (c :: r)) eqn:E.
    + injection Hi as <-. cbn [firstn]. rewrite app_nil_l.
      now rewrite includes_skip.
    + destruct (indexOfUnits (t0 :: tk) r) as [i'|]; [|discriminate Hi].
      injection Hi as <-. cbn [firstn].
      change ((c :: firstn i' r) ++ (s :: stars) ++ suf)
        with (c :: (firstn i' r ++ (s :: stars) ++ suf)).
      rewrite includes_cons, (IH i' eq_refl), orb_false_r.
      destruct (Js.startsWith (t0 :: tk) (c :: firstn i' r ++ (s :: stars) ++ suf))
        eqn:E2; [|reflexivity].
      exfalso.
      change (c :: firstn i' r ++ (s :: stars) ++ suf)
        with ((c :: firstn i' r) ++ s :: (stars ++ suf)) in E2.
      destruct (startsWith_app_cases _ _ _ _ E2) as [H | H].
      * apply (startsWith_firstn _ (c :: r) (S i')) in H. congruence.
      * exact (Hstar H).
Qed.

Lemma indexOfUnits_None (w l : list ascii) :
  indexOfUnits w l = None -> Js.includes w l = false.
Proof.
  induction l as [|c r IH]; rewrite indexOfUnits_eq.
  - destruct (Js.startsWith w []) eqn:E; [discriminate|].
    intros _. cbn. now rewrite E.
  - destruct (Js.startsWith w (c :: r)) eqn:E; [discriminate|].
    destruct (indexOfUnits w r); [discriminate|].
    intros _. rewrite includes_cons, E, IH; reflexivity.
Qed.

Lemma length_list_ascii_of_string (s : string) :
  List.length (list_ascii_of_string s) = String.length s.
Proof. induction s as [|c s IH]; [reflexivity|]. simpl. now rewrite IH. Qed.

Lemma platformToken_no_star (token : string) :
  platformToken token = true ->
  ~ In "*"%char (list_ascii_of_string token).
Proof.
  unfold platformToken. destruct (list_ascii_of_string token) as [|c w]; [discriminate|].
  intros H. apply andb_true_iff in H. destruct H as [Hc Hw].
  intros [E | Hin].
  - subst c. discriminate Hc.
  - rewrite forallb_forall in Hw. specialize (Hw _ Hin). discriminate Hw.
Qed.

(** X13.  With a token of the platform's format, the line the deployment
    script logs does not contain the token, provided the webhook URL does
    not hold the token again after its first occurrence. *)
Theorem postDeploy_log_token_free (env : Env) (url : string) :
  platformToken (BOT_TOKEN env) = true ->
  TELEGRAM_WEBHOOK_URL env = Some url ->
  noOccurrenceAfterFirst url (BOT_TOKEN env) = true ->
  exists line fetched,
    postDeploy env = ([ConsoleLog line; Fetch fetched], Returned tt) /\
    Js.String_includes line (BOT_TOKEN env) = false.
Proof.
  intros Hplatform Hurl Honce. unfold postDeploy. rewrite Hurl.
  eexists. eexists. split; [reflexivity|].
  destruct (platformToken_head_digit _ Hplatform) as [d [dk [Ed Hdigit]]].
  pose proof (platformToken_no_star _ Hplatform) as Hstar.
  unfold Js.String_includes, JsText.replaceString.
  rewrite list_ascii_of_string_app, list_ascii_of_string_of_list_ascii.
  unfold noOccurrenceAfterFirst, String_indexOf in Honce.
  rewrite <- length_list_ascii_of_string in Honce.
  rewrite Ed in *.
  assert (Hnodigit : forall a, forallb (fun c => negb (RegExp.isDigit c)) a = true ->
                               forall c, In c a -> c <> d).
  { intros a Ha c Hc ->. rewrite forallb_forall in Ha.
    specialize (Ha _ Hc). rewrite Hdigit in Ha. discriminate Ha. }
  rewrite includes_skip by (apply Hnodigit; reflexivity).
  rewrite replaceStringFrom_indexOf.
  destruct (indexOfUnits (d :: dk) (list_ascii_of_string url)) as [i|] eqn:Ei.
  - change (RegExp.GetSubstitution ?m ?b ?a (list_ascii_of_string "***"))
      with ["*"%char; "*"%char; "*"%char].
    apply (first_occurrence_starred d dk "*"%char ["*"%char; "*"%char]).
    + apply Hnodigit. reflexivity.
    + exact Hstar.
    + now apply negb_true_iff.
    + exact Ei.
  - now apply indexOfUnits_None.
Qed.

Lemma postDeploy_log_token_free_witness :
  let env := {| BOT_TOKEN := "123456:ABC-DEF";
                BOT_INFO := "{}";
                ALLOWED_USER_IDS := [];
                TELEGRAM_WEBHOOK_URL := Some "https://example.org/api/123456:ABC-DEF/hook";
                PROTECTED_BOT := true;
                WEBHOOK_SECRET := None;
                OPENAI_API_KEY := "sk" |} in
  platformToken (BOT_TOKEN env) = true /\
  noOccurrenceAfterFirst "https://example.org/api/123456:ABC-DEF/hook" (BOT_TOKEN env)
  = true /\
  exists line fetched,
    postDeploy env = ([ConsoleLog line; Fetch fetched], Returned tt) /\
    Js.String_includes line (BOT_TOKEN env) = false.
Proof.
  cbv zeta. split; [reflexivity|]. split; [reflexivity|].
  apply (postDeploy_log_token_free _ "https://example.org/api/123456:ABC-DEF/hook");
    reflexivity.
Defined.

(** ** The allow list of the environment *)















Lemma trimStart_all_white (l : list ascii) :
  forallb JsText.isWhiteSpace l = true -> JsText.trimStart l = [].
Proof.
  induction l as [|c l IH]; [reflexivity|]. cbn [forallb JsText.trimStart].
  intros H. apply andb_true_iff in H. destruct H as [-> H]. now apply IH.
Qed.

(** X15.  A text of white space only, unlike the empty text, does not
    give the empty allow list: the preprocess step returns the single id
    0 for it. *)
Theorem allow_list_of_white_space (s : string) :
  s <> "" ->
  forallb JsText.isWhiteSpace (list_ascii_of_string s) = true ->
  ALLOWED_USER_IDS_preprocess (VString s) = [JsText.Int 0] /\
  ALLOWED_USER_IDS_preprocess (VString "") = [].
Proof.
  intros Hne Hws. split; [|reflexivity].
  destruct s as [|c s]; [congruence|].
  unfold ALLOWED_USER_IDS_preprocess, JsText.trim, JsText.trimEnd.
  rewrite (trimStart_all_white _ Hws). reflexivity.
Qed.

Lemma allow_list_of_white_space_witness :
  ALLOWED_USER_IDS_preprocess (VString "  ") = [JsText.Int 0] /\
  ALLOWED_USER_IDS_preprocess (VString "") = [].
Proof.
  apply (allow_list_of_white_space "  "); [discriminate | reflexivity].
Defined.

(** X16.  With a plain token, [mask] replaces an occurrence of the token
    at the front of a text and goes on with the rest: every occurrence is
    replaced, not only the first one. *)
Theorem mask_replaces_every_occurrence (options : BotAppOptions) (rest : string) :
  plainToken (botToken options) = true ->
  exists maskedRest,
    maskBotToken options rest mask = Some maskedRest /\
    maskBotToken options (botToken options ++ rest) mask
    = Some ("${{BOT_TOKEN}}" ++ maskedRest)%string /\
    maskBotToken options (botToken options ++ botToken options ++ rest) mask
    = Some ("${{BOT_TOKEN}}" ++ "${{BOT_TOKEN}}" ++ maskedRest)%string.
Proof.
  intros Hplain.
  destruct (mask_units_facts options Hplain) as [t0 [tk [_ [_ [_ [_ [Htok _]]]]]]].
  eexists. split; [apply (mask_plain options rest Hplain)|].
  rewrite !(mask_plain options _ Hplain), !list_ascii_of_string_app, !Htok.
  rewrite !string_of_list_ascii_app. split; reflexivity.
Qed.

Lemma mask_replaces_every_occurrence_witness :
  plainToken (botToken sampleOptions) = true /\
  exists maskedRest,
    maskBotToken sampleOptions "/a.jpg" mask = Some maskedRest /\
    maskBotToken sampleOptions (botToken sampleOptions ++ "/a.jpg") mask
    = Some ("${{BOT_TOKEN}}" ++ maskedRest)%string /\
    maskBotToken sampleOptions
      (botToken sampleOptions ++ botToken sampleOptions ++ "/a.jpg") mask
    = Some ("${{BOT_TOKEN}}" ++ "${{BOT_TOKEN}}" ++ maskedRest)%string.
Proof.
  split; [reflexivity|].
  apply (mask_replaces_every_occurrence sampleOptions). reflexivity.
Defined.
